(** * sllm: data-preparation and training glue, embedded in Rocq

    The four scripts of the repository are embedded one module each:

    - [Filtering]  : preprocess/filtering_github2025.py   (collector)
    - [Harvester]  : preprocess/make_autosar_cpt_data.py  (local harvester)
    - [SFT]        : preprocess/sft_data_generate.py      (prompt-pair generator)
    - [Train]      : unsloth/train/cpt_train.py           (training driver)

    A Python [str] is a Rocq [string]; a Python [int] is a [Z]; a list is a
    [list]; a dict whose iteration order matters is an association list.
    A call that may raise returns a [result].  External collaborators (the
    streaming corpus, the file system, the tokenizer, the chat model,
    [str.lower]) are parameters of the functions that use them. *)

From Stdlib Require Import String Ascii List ZArith QArith Bool Lia.
From Stdlib Require Import DecimalString.
Import ListNotations.

Open Scope string_scope.
Open Scope Z_scope.

(** ** Python run-time values shared by the scripts *)

Module Py.

(** The exceptions the scripts can meet, with the argument they carry. *)
Inductive exn : Type :=
| KeyError (key : string)
| IndexError (msg : string)
| ValueError (msg : string)
| AssertionError (msg : string)
| ZeroDivisionError (msg : string)
| UnicodeDecodeError (msg : string)
| Exception (msg : string).

Inductive result (A : Type) : Type :=
| Ok (a : A)
| Raise (e : exn).
Arguments Ok {A} a.
Arguments Raise {A} e.

Definition bind {A B} (r : result A) (k : A -> result B) : result B :=
  match r with
  | Ok a => k a
  | Raise e => Raise e
  end.

Definition is_raise {A} (r : result A) : bool :=
  match r with Ok _ => false | Raise _ => true end.

Definition nl : string := String (ascii_of_nat 10) EmptyString.
Definition dquote : string := String (ascii_of_nat 34) EmptyString.
Definition squote : string := String (ascii_of_nat 39) EmptyString.

(** [str(e)]: the message; a KeyError prints the repr of its key. *)
Definition str_of_exn (e : exn) : string :=
  match e with
  | KeyError k => squote ++ k ++ squote
  | IndexError m | ValueError m | AssertionError m
  | ZeroDivisionError m | UnicodeDecodeError m | Exception m => m
  end.

(** [len(l)] as a Python int. *)
Definition len {A} (l : list A) : Z := Z.of_nat (List.length l).

(** [len(s)] of a string. *)
Definition slen (s : string) : Z := Z.of_nat (String.length s).

(** [s[:k]] and [s[k:]] for an index [k] inside the string. *)
Definition take (k : nat) (s : string) : string := substring 0 k s.
Definition drop (k : nat) (s : string) : string :=
  substring k (String.length s - k) s.

(** [l[:n]]: a negative bound counts from the end. *)
Definition slice_to {A} (n : Z) (l : list A) : list A :=
  if 0 <=? n then firstn (Z.to_nat n) l
  else firstn (Z.to_nat (len l + n)) l.

(** [s.rfind(c)]: index of the last occurrence, -1 when there is none. *)
Fixpoint rfind_from (c : ascii) (s : string) (i last : Z) : Z :=
  match s with
  | EmptyString => last
  | String a s' =>
      rfind_from c s' (i + 1) (if Ascii.eqb a c then i else last)
  end.

Definition rfind (c : ascii) (s : string) : Z := rfind_from c s 0 (-1).

(** [repr] of a list of plain strings, as an f-string prints it. *)
Definition repr_list (l : list string) : string :=
  "[" ++ String.concat ", " (map (fun s => squote ++ s ++ squote) l) ++ "]".

(** [x in l] for a list of strings. *)
Definition str_in (x : string) (l : list string) : bool :=
  existsb (String.eqb x) l.

(** genericpath._splitext, the loop that skips leading dots of the file
    name: [n] counts the iterations left, [dotIndex - filenameIndex]. *)
Fixpoint splitext_scan (p : string) (filenameIndex n dotIndex : nat)
  : string * string :=
  match n with
  | O => (p, EmptyString)
  | S n' =>
      match String.get filenameIndex p with
      | Some "."%char => splitext_scan p (S filenameIndex) n' dotIndex
      | _ => (take dotIndex p, drop dotIndex p)
      end
  end.

(** posixpath.splitext: sep = '/', altsep = None, extsep = '.'. *)
Definition splitext (p : string) : string * string :=
  let sepIndex := rfind "/"%char p in
  let dotIndex := rfind "."%char p in
  if sepIndex <? dotIndex then
    let filenameIndex := sepIndex + 1 in
    splitext_scan p (Z.to_nat filenameIndex)
      (Z.to_nat (dotIndex - filenameIndex)) (Z.to_nat dotIndex)
  else (p, EmptyString).

(** The case mapping of ASCII letters; the scripts call [str.lower],
    whose Unicode table belongs to the interpreter, so the embedded
    functions take the mapping as an argument and this one serves the
    concrete runs. *)
Definition ascii_lower_char (c : ascii) : ascii :=
  let n := nat_of_ascii c in
  if ((65 <=? n) && (n <=? 90))%nat then ascii_of_nat (n + 32) else c.

Fixpoint ascii_lower (s : string) : string :=
  match s with
  | EmptyString => EmptyString
  | String c s' => String (ascii_lower_char c) (ascii_lower s')
  end.

(** A dict of counters, in insertion order: [d.get(k, 0)] and
    [d[k] = v] for keys compared by [eqb]. *)
Fixpoint counter_get {K} (eqb : K -> K -> bool) (d : list (K * Z)) (k : K)
  : Z :=
  match d with
  | [] => 0
  | (k', v) :: rest => if eqb k' k then v else counter_get eqb rest k
  end.

Fixpoint counter_set {K} (eqb : K -> K -> bool) (d : list (K * Z)) (k : K)
    (v : Z) : list (K * Z) :=
  match d with
  | [] => [(k, v)]
  | (k', v') :: rest =>
      if eqb k' k then (k', v) :: rest
      else (k', v') :: counter_set eqb rest k v
  end.

(** The loop [for x in xs: d[key] = d.get(key, 0) + 1], from the dict [d]. *)
Fixpoint tally_from {K} (eqb : K -> K -> bool) (keys : list K)
    (d : list (K * Z)) : list (K * Z) :=
  match keys with
  | [] => d
  | k :: rest =>
      tally_from eqb rest (counter_set eqb d k (counter_get eqb d k + 1))
  end.

Definition tally {K} (eqb : K -> K -> bool) (keys : list K) : list (K * Z) :=
  tally_from eqb keys [].

(** The sum of all counters of a dict. *)
Definition counter_total {K} (d : list (K * Z)) : Z :=
  fold_right Z.add 0 (map snd d).

(** Equality of two classifier results (a name or None). *)
Definition option_string_eqb (a b : option string) : bool :=
  match a, b with
  | Some x, Some y => String.eqb x y
  | None, None => true
  | _, _ => false
  end.

End Py.

Import Py.

(** ** preprocess/filtering_github2025.py *)

Module Filtering.

(** ALLOWED_LANGUAGES, in insertion order (the order of iteration). *)
Definition ALLOWED_LANGUAGES : list (string * list string) :=
  [ ("python", [".py"]);
    ("javascript", [".js"; ".jsx"]);
    ("typescript", [".ts"; ".tsx"]);
    ("java", [".java"]);
    ("c", [".c"; ".h"]);
    ("cpp", [".cpp"; ".hpp"; ".cc"; ".hh"; ".cxx"; ".hxx"]);
    ("go", [".go"]);
    ("rust", [".rs"]);
    ("ruby", [".rb"]);
    ("php", [".php"]);
    ("swift", [".swift"]);
    ("kotlin", [".kt"; ".kts"]);
    ("scala", [".scala"]);
    ("r", [".r"; ".R"]);
    ("shell", [".sh"; ".bash"]) ].

(** The [for language, extensions in table.items()] loop with its early
    return. *)
Fixpoint find_language (table : list (string * list string)) (ext : string)
  : option string :=
  match table with
  | [] => None
  | (language, extensions) :: rest =>
      if str_in ext extensions then Some language
      else find_language rest ext
  end.

(** The extension the classifier looks up. *)
Definition extension (lower : string -> string) (file_path : string)
  : string :=
  snd (splitext (lower file_path)).

Definition get_language_from_filepath (lower : string -> string)
    (file_path : string) : option string :=
  let ext := extension lower file_path in
  find_language ALLOWED_LANGUAGES ext.

(** A language owns an extension when the table lists the extension
    under it. *)
Definition owns_in (table : list (string * list string))
    (language ext : string) : Prop :=
  exists extensions, In (language, extensions) table /\ In ext extensions.

Definition owns (language ext : string) : Prop :=
  owns_in ALLOWED_LANGUAGES language ext.

(** [lang not in ALLOWED_LANGUAGES]: membership among the dict's keys. *)
Definition is_allowed (lang : string) : bool :=
  str_in lang (map fst ALLOWED_LANGUAGES).

Definition validate_languages (languages : list string) : result unit :=
  let invalid_languages :=
    filter (fun lang => negb (is_allowed lang)) languages in
  if len invalid_languages =? 0 then Ok tt
  else Raise (AssertionError
         ("허용되지 않은 언어가 포함되어 있습니다: "
          ++ repr_list invalid_languages ++ nl
          ++ "허용된 언어 목록: "
          ++ repr_list (map fst ALLOWED_LANGUAGES))).

(** A record of the stream: every field may be absent. *)
Record example : Type := mk_example {
  ex_repo_id : option string;
  ex_size : option Z;
  ex_file_path : option string;
  ex_content : option string
}.

(** A collected record. *)
Record code_record : Type := mk_code_record {
  repo_id : string;
  size : Z;
  file_path : string;
  content : string
}.

Definition get {A} (field : option A) (default : A) : A :=
  match field with Some v => v | None => default end.

(** [detected_language in args.languages]; None is in no list of names. *)
Definition detected_in (detected : option string) (languages : list string)
  : bool :=
  match detected with
  | Some l => str_in l languages
  | None => false
  end.

Definition make_record (ex : example) (fp : string) : code_record :=
  {| repo_id := get (ex_repo_id ex) "unknown";
     size := get (ex_size ex) (slen (get (ex_content ex) ""));
     file_path := fp;
     content := get (ex_content ex) "" |}.

(** The [for example in streaming_data['train']] loop, carrying
    [collected_data] and [total_checked]; [continue] skips the test at
    the end of the body, [break] leaves the loop. *)
Fixpoint collect (lower : string -> string) (languages : list string)
    (sample_size : Z) (stream : list example)
    (collected_data : list code_record) (total_checked : Z)
  : list code_record * Z :=
  match stream with
  | [] => (collected_data, total_checked)
  | ex :: rest =>
      let total_checked := total_checked + 1 in
      match ex_file_path ex with
      | None =>
          collect lower languages sample_size rest
            collected_data total_checked
      | Some fp =>
          let detected_language := get_language_from_filepath lower fp in
          let collected_data :=
            if detected_in detected_language languages
            then (collected_data ++ [make_record ex fp])%list
            else collected_data in
          if sample_size <=? len collected_data
          then (collected_data, total_checked)
          else collect lower languages sample_size rest
                 collected_data total_checked
      end
  end.

(** A record is wanted when the language classified from its path is
    one of the requested ones. *)
Definition wanted (lower : string -> string) (languages : list string)
    (r : code_record) : Prop :=
  exists language,
    get_language_from_filepath lower (file_path r) = Some language
    /\ In language languages.

(** [main]: validation, then the collection that is written out. *)
Definition main (lower : string -> string) (languages : list string)
    (sample_size : Z) (stream : list example)
  : result (list code_record) :=
  bind (validate_languages languages) (fun _ =>
    Ok (fst (collect lower languages sample_size stream [] 0))).

(** [ALLOWED_LANGUAGES[lang]] *)
Fixpoint allowed_get (table : list (string * list string)) (lang : string)
  : result (list string) :=
  match table with
  | [] => Raise (KeyError lang)
  | (language, extensions) :: rest =>
      if String.eqb language lang then Ok extensions else allowed_get rest lang
  end.

(** Step 2 of [main]: the extensions of the requested languages, in the
    order of the request. *)
Fixpoint target_extensions (languages : list string)
    (target : list string) : result (list string) :=
  match languages with
  | [] => Ok target
  | lang :: rest =>
      bind (allowed_get ALLOWED_LANGUAGES lang) (fun extensions =>
        target_extensions rest (target ++ extensions)%list)
  end.

(** The per-language statistics of step 5: one counter for each
    classifier result met among the collected records. *)
Definition language_counts (lower : string -> string)
    (collected_data : list code_record) : list (option string * Z) :=
  tally option_string_eqb
    (map (fun data => get_language_from_filepath lower (file_path data))
       collected_data).

(** The records of a stream that carry a path of a requested language, in
    the order of the stream. *)
Fixpoint matching (lower : string -> string) (languages : list string)
    (stream : list example) : list code_record :=
  match stream with
  | [] => []
  | ex :: rest =>
      match ex_file_path ex with
      | Some fp =>
          if detected_in (get_language_from_filepath lower fp) languages
          then make_record ex fp :: matching lower languages rest
          else matching lower languages rest
      | None => matching lower languages rest
      end
  end.

End Filtering.

(** ** preprocess/make_autosar_cpt_data.py *)

Module Harvester.

(** What the script can observe of a regular file: its size in bytes
    and what [open(path, "r").read()] gives under the default encoding
    and under cp949 ([None]: the read raises). *)
Record file_data : Type := mk_file_data {
  getsize : Z;
  read_default : option string;
  read_cp949 : option string
}.

(** A directory tree; the children of a directory come in the order
    the operating system lists them. *)
#[warnings="-register-all"] Inductive node : Type :=
| File (name : string) (data : file_data)
| Dir (name : string) (children : list node).

Definition node_name (n : node) : string :=
  match n with File x _ | Dir x _ => x end.

Definition isdir (n : node) : bool :=
  match n with Dir _ _ => true | File _ _ => false end.

(** glob._ishidden: the name starts with a dot. *)
Definition ishidden (name : string) : bool :=
  match name with
  | String "."%char _ => true
  | _ => false
  end.

Definition endswith_sep (p : string) : bool :=
  match String.get (String.length p - 1) p with
  | Some "/"%char => true
  | _ => false
  end.

(** posixpath.join of two components, the second one relative. *)
Definition join (a b : string) : string :=
  if (String.length a =? 0)%nat then b
  else if endswith_sep a then a ++ b
  else a ++ "/" ++ b.

(** glob._rlistdir with dironly=True: the directories below a directory,
    each before its own subdirectories, hidden ones left out together
    with everything under them. *)
Fixpoint rlistdir_node (n : node) : list (string * list node) :=
  match n with
  | File _ _ => []
  | Dir x sub =>
      if ishidden x then []
      else (x, sub)
             :: map (fun ys => (join x (fst ys), snd ys))
                  (flat_map rlistdir_node sub)
  end.

Definition rlistdir (children : list node) : list (string * list node) :=
  flat_map rlistdir_node children.

(** glob._glob1 with the pattern "*": the entries that are not hidden. *)
Definition glob1 (children : list node) : list node :=
  filter (fun n => negb (ishidden (node_name n))) children.

(** glob.glob(input_dir + "/**/*", recursive=True) on a directory whose
    children are [root]: "**" yields the directory itself and then
    [rlistdir], "*" lists each of them.  Every match comes with its
    path relative to [input_dir], which is what os.path.relpath gives
    back for it. *)
Definition glob_recursive (root : list node) : list (string * node) :=
  flat_map
    (fun d => map (fun n => (join (fst d) (node_name n), n)) (glob1 (snd d)))
    ((EmptyString, root) :: rlistdir root).

(** The read with its fallback: the bare [except] retries under cp949,
    and a failure there propagates. *)
Definition read_code (d : file_data) : result string :=
  match read_default d with
  | Some code => Ok code
  | None =>
      match read_cp949 d with
      | Some code => Ok code
      | None => Raise (UnicodeDecodeError "cp949")
      end
  end.

Record data_entry : Type := mk_data_entry {
  repo_id : string;
  file_path : string;
  content : string;
  size : Z;
  token_size : Z
}.

(** The loop over [total_code_path_lst], carrying [dataset] and
    [check_token_size_list]. *)
Fixpoint harvest (encode : string -> list Z) (repo : string)
    (paths : list (string * node))
    (dataset : list data_entry) (check : list (Z * string))
  : result (list data_entry * list (Z * string)) :=
  match paths with
  | [] => Ok (dataset, check)
  | (rel, Dir _ _) :: rest => harvest encode repo rest dataset check
  | (rel, File _ d) :: rest =>
      bind (read_code d) (fun code =>
        let entry :=
          {| repo_id := repo;
             file_path := rel;
             content := code;
             size := getsize d;
             token_size := len (encode code) |} in
        harvest encode repo rest
          (dataset ++ [entry])%list
          (check ++ [(len (encode code), rel)])%list)
  end.

(** [max(l, key=lambda x: x[0])] and [min]: the first extremal element. *)
Fixpoint max_from (best : Z * string) (l : list (Z * string)) : Z * string :=
  match l with
  | [] => best
  | x :: rest => max_from (if fst best <? fst x then x else best) rest
  end.

Fixpoint min_from (best : Z * string) (l : list (Z * string)) : Z * string :=
  match l with
  | [] => best
  | x :: rest => min_from (if fst x <? fst best then x else best) rest
  end.

Definition py_max (l : list (Z * string)) : result (Z * string) :=
  match l with
  | [] => Raise (ValueError "max() arg is an empty sequence")
  | x :: rest => Ok (max_from x rest)
  end.

Definition py_min (l : list (Z * string)) : result (Z * string) :=
  match l with
  | [] => Raise (ValueError "min() arg is an empty sequence")
  | x :: rest => Ok (min_from x rest)
  end.

(** [sum(l)]. *)
Definition sum (l : list Z) : Z := fold_left Z.add l 0.

(** [a / b] on ints: the quotient as a rational (the float Python
    yields is its rounding). *)
Definition true_div (a b : Z) : result Q :=
  if b =? 0 then Raise (ZeroDivisionError "division by zero")
  else Ok (Qmake (Z.sgn b * a) (Z.to_pos (Z.abs b))).

Record stats : Type := mk_stats {
  max_token_entry : Z * string;
  min_token_entry : Z * string;
  avg_token_size : Q
}.

(** The three lines after the JSON dump. *)
Definition statistics (check : list (Z * string)) : result stats :=
  bind (py_max check) (fun mx =>
  bind (py_min check) (fun mn =>
  bind (true_div (sum (map fst check)) (len check)) (fun avg =>
    Ok {| max_token_entry := mx;
          min_token_entry := mn;
          avg_token_size := avg |}))).

(** What a run leaves behind, in order. *)
Inductive event : Type :=
| JsonDump (output_path : string) (dataset : list data_entry)
| PrintSaved (count : Z) (output_path : string)
| PrintMax (tokens : Z) (file : string)
| PrintMin (tokens : Z) (file : string)
| PrintAvg (avg : Q).

Definition main (encode : string -> list Z) (repo output_path : string)
    (root : list node) : list event * result unit :=
  let total_code_path_lst := glob_recursive root in
  match harvest encode repo total_code_path_lst [] [] with
  | Raise e => ([], Raise e)
  | Ok (dataset, check) =>
      let out :=
        [JsonDump output_path dataset;
         PrintSaved (len dataset) output_path] in
      match statistics check with
      | Raise e => (out, Raise e)
      | Ok s =>
          ((out ++ [PrintMax (fst (max_token_entry s)) (snd (max_token_entry s));
                    PrintMin (fst (min_token_entry s)) (snd (min_token_entry s));
                    PrintAvg (avg_token_size s)])%list,
           Ok tt)
      end
  end.

(** The matches that are not directories. *)
Definition regular_files (paths : list (string * node))
  : list (string * node) :=
  filter (fun p => negb (isdir (snd p))) paths.

(** The entries of one directory that "*" matches and that are files. *)
Definition visible_file (n : node) : bool :=
  negb (isdir n) && negb (ishidden (node_name n)).

Definition direct_files (children : list node) : nat :=
  List.length (filter visible_file children).

(** What [check_token_size_list] holds for a harvested record. *)
Definition check_of (e : data_entry) : Z * string :=
  (token_size e, file_path e).

(** The number of non-directory files anywhere under a node. *)
Fixpoint count_files (n : node) : nat :=
  match n with
  | File _ _ => 1
  | Dir _ sub => list_sum (map count_files sub)
  end.

(** The number of non-directory files reached through names that do not
    start with a dot. *)
Fixpoint count_visible_files (n : node) : nat :=
  match n with
  | File x _ => if ishidden x then 0 else 1
  | Dir x sub =>
      if ishidden x then 0 else list_sum (map count_visible_files sub)
  end.

(** Every file the glob reaches can be read under one of the two
    encodings. *)
Definition readable (d : file_data) : bool :=
  match read_default d, read_cp949 d with
  | None, None => false
  | _, _ => true
  end.

Fixpoint all_readable (n : node) : bool :=
  match n with
  | File x d => ishidden x || readable d
  | Dir x sub => ishidden x || forallb all_readable sub
  end.

(** No name in the subtree starts with a dot. *)
Fixpoint no_hidden (n : node) : bool :=
  match n with
  | File x _ => negb (ishidden x)
  | Dir x sub => negb (ishidden x) && forallb no_hidden sub
  end.

End Harvester.

(** ** preprocess/sft_data_generate.py *)

Module SFT.

(** An input record, with the four fields the docstring of
    [generate_sft_data] promises. *)
Record code_entry : Type := mk_code_entry {
  repo_id : string;
  file_path : string;
  content : string;
  size : Z
}.

Record metadata : Type := mk_metadata {
  strategy : string;
  meta_repo_id : string;
  meta_file_path : string
}.

Record sft_entry : Type := mk_sft_entry {
  instruction : string;
  output : string;
  meta : metadata
}.

Inductive message : Type :=
| SystemMessage (content : string)
| HumanMessage (content : string).

(** The state of a run: how many chat calls were made, and what was
    printed (latest line last). *)
Record state : Type := mk_state {
  calls : nat;
  stdout : list string
}.

Definition M (A : Type) : Type := state -> result A * state.

Definition ret {A} (a : A) : M A := fun st => (Ok a, st).

Definition bindM {A B} (c : M A) (k : A -> M B) : M B :=
  fun st =>
    match c st with
    | (Ok a, st') => k a st'
    | (Raise e, st') => (Raise e, st')
    end.

Notation "x <- c ;; k" := (bindM c (fun x => k))
  (at level 61, c at next level, right associativity).
Notation "c ;;; k" := (bindM c (fun _ => k))
  (at level 61, right associativity).

(** The state after one more printed line, and after one more chat call. *)
Definition logged (st : state) (line : string) : state :=
  {| calls := calls st; stdout := (stdout st ++ [line])%list |}.

Definition called (st : state) : state :=
  {| calls := S (calls st); stdout := stdout st |}.

Definition print (line : string) : M unit :=
  fun st => (Ok tt, logged st line).

Definition str_of_int (n : Z) : string :=
  NilZero.string_of_int (Z.to_int n).

(** [s.split(sep)] for a one-character separator; [cur] is the piece
    being read. *)
Fixpoint split_from (sep : ascii) (s cur : string) : list string :=
  match s with
  | EmptyString => [cur]
  | String c s' =>
      if Ascii.eqb c sep then cur :: split_from sep s' EmptyString
      else split_from sep s' (cur ++ String c EmptyString)
  end.

Definition split (sep : ascii) (s : string) : list string :=
  split_from sep s EmptyString.

Definition newline : ascii := ascii_of_nat 10.

(** [d.get(key, default)] on a dict of strings. *)
Fixpoint dict_get (d : list (string * string)) (key default : string)
  : string :=
  match d with
  | [] => default
  | (k, v) :: rest => if String.eqb k key then v else dict_get rest key default
  end.

Definition fence : string := "```".

Section Generator.

(** The chat model: the reply to the [k]-th call of a run, or the
    exception it raises. *)
Variable llm : nat -> list message -> result string.
Variable lower : string -> string.
(** [int(n * 0.7)], in the interpreter's floating point. *)
Variable int_mul_0_7 : Z -> Z.
Variable max_code_length : Z.

(** [self.llm.invoke(messages).content] *)
Definition invoke (messages : list message) : M string :=
  fun st => (llm (calls st) messages, called st).

Definition _create_prompt (system_message user_message : string)
  : list message :=
  [SystemMessage system_message; HumanMessage user_message].

Definition _generate_code_documentation (e : code_entry) : M sft_entry :=
  let code := content e in
  let file_path := file_path e in
  let system_msg :=
    "당신은 코드 문서화 전문가입니다. 가독성 높은 주석과 docstring을 작성합니다." in
  let user_msg :=
    "다음 코드에 적절한 주석과 docstring을 추가해주세요:" ++ nl ++ nl
    ++ fence ++ nl ++ code ++ nl ++ fence ++ nl ++ nl
    ++ "- 함수/클래스에는 docstring 추가" ++ nl
    ++ "- 복잡한 로직에는 inline 주석 추가" ++ nl
    ++ "- 한국어로 작성" in
  let messages := _create_prompt system_msg user_msg in
  response <- invoke messages ;;
  ret {| instruction :=
           "다음 코드에 주석과 docstring을 추가해주세요:" ++ nl ++ nl
           ++ fence ++ nl ++ code ++ nl ++ fence;
         output := response;
         meta := {| strategy := "code_documentation";
                    meta_repo_id := repo_id e;
                    meta_file_path := file_path |} |}.

Definition _generate_code_completion (e : code_entry) : M sft_entry :=
  let code := content e in
  let file_path := file_path e in
  let lines := split newline code in
  let cutoff := int_mul_0_7 (len lines) in
  let partial_code := String.concat nl (slice_to cutoff lines) in
  let system_msg := "당신은 코드 완성을 돕는 AI 어시스턴트입니다." in
  let user_msg :=
    "다음 미완성 코드를 분석하고 나머지 부분을 완성해주세요:" ++ nl ++ nl
    ++ fence ++ nl ++ partial_code ++ nl ++ fence ++ nl ++ nl
    ++ "원본 파일: " ++ file_path ++ nl
    ++ "논리적 흐름을 유지하면서 코드를 완성해주세요." in
  let messages := _create_prompt system_msg user_msg in
  response <- invoke messages ;;
  ret {| instruction :=
           "다음 미완성 코드를 완성해주세요:" ++ nl ++ nl
           ++ fence ++ nl ++ partial_code ++ nl ++ fence;
         output := response;
         meta := {| strategy := "code_completion";
                    meta_repo_id := repo_id e;
                    meta_file_path := file_path |} |}.

Definition lang_map : list (string * string) :=
  [ ("py", "python"); ("js", "javascript"); ("ts", "typescript");
    ("java", "java"); ("cpp", "cpp"); ("c", "c"); ("go", "go");
    ("rs", "rust"); ("rb", "ruby"); ("php", "php") ].

Definition _generate_function_implementation (e : code_entry)
  : M sft_entry :=
  let code := content e in
  let file_path := file_path e in
  let file_ext := lower (last (split "."%char file_path) EmptyString) in
  let language := dict_get lang_map file_ext EmptyString in
  let system_msg1 :=
    "당신은 코드를 자연어 요구사항으로 변환하는 전문가입니다." in
  let user_msg1 :=
    "다음 코드를 자연어 요구사항으로 변환해주세요. 마치 개발자에게 구현을 요청하는 것처럼 작성해주세요:"
    ++ nl ++ nl
    ++ fence ++ nl ++ code ++ nl ++ fence ++ nl ++ nl
    ++ "형식: " ++ dquote ++ "다음과 같은 기능을 구현해주세요: ..."
    ++ dquote ++ " 스타일로 작성" in
  let messages1 := _create_prompt system_msg1 user_msg1 in
  requirement <- invoke messages1 ;;
  let output_with_codeblock :=
    fence ++ language ++ nl ++ code ++ nl ++ fence in
  ret {| instruction := requirement;
         output := output_with_codeblock;
         meta := {| strategy := "function_implementation";
                    meta_repo_id := repo_id e;
                    meta_file_path := file_path |} |}.

Definition _generate_code_summary (e : code_entry) : M sft_entry :=
  let code := content e in
  let file_path := file_path e in
  let system_msg :=
    "당신은 코드를 간결하고 명확하게 요약하는 전문가입니다." in
  let user_msg :=
    "다음 코드를 간결하게 요약해주세요 (3-5문장):" ++ nl ++ nl
    ++ fence ++ nl ++ code ++ nl ++ fence ++ nl ++ nl
    ++ "포함할 내용:" ++ nl
    ++ "- 주요 기능" ++ nl
    ++ "- 핵심 로직" ++ nl
    ++ "- 입출력" in
  let messages := _create_prompt system_msg user_msg in
  response <- invoke messages ;;
  ret {| instruction :=
           "다음 코드를 간결하게 요약해주세요:" ++ nl ++ nl
           ++ fence ++ nl ++ code ++ nl ++ fence;
         output := response;
         meta := {| strategy := "code_summary";
                    meta_repo_id := repo_id e;
                    meta_file_path := file_path |} |}.

(** A bound method of the generator, with its [__name__]. *)
Record strategy_func : Type := mk_strategy {
  name : string;
  call : code_entry -> M sft_entry
}.

(** [self.strategies]: the four entries that are not commented out. *)
Definition strategies : list strategy_func :=
  [ mk_strategy "_generate_code_documentation" _generate_code_documentation;
    mk_strategy "_generate_code_completion" _generate_code_completion;
    mk_strategy "_generate_function_implementation"
      _generate_function_implementation;
    mk_strategy "_generate_code_summary" _generate_code_summary ].

Definition error_msg (f : strategy_func) (e : code_entry) (err : exn)
  : string :=
  "❌ 에러 발생 (" ++ name f ++ "): " ++ file_path e ++ nl
  ++ str_of_exn err.

(** [for strategy_func in selected_strategies] with its try/except. *)
Fixpoint apply_strategies (skip_errors : bool)
    (selected_strategies : list strategy_func) (e : code_entry)
    (sft_dataset : list sft_entry) : M (list sft_entry) :=
  match selected_strategies with
  | [] => ret sft_dataset
  | f :: rest =>
      fun st =>
        match call f e st with
        | (Ok sft_entry, st') =>
            apply_strategies skip_errors rest e
              (sft_dataset ++ [sft_entry])%list st'
        | (Raise err, st') =>
            if skip_errors then
              (print (error_msg f e err) ;;;
               apply_strategies skip_errors rest e sft_dataset) st'
            else (Raise (Exception (error_msg f e err)), st')
        end
  end.

(** [for code_entry in tqdm(code_entries)]. *)
Fixpoint generate_from (code_entries : list code_entry)
    (strategies_per_code : Z) (skip_errors : bool)
    (sft_dataset : list sft_entry) : M (list sft_entry) :=
  match code_entries with
  | [] => ret sft_dataset
  | e :: rest =>
      if max_code_length <? slen (content e) then
        print ("⚠️ 코드가 너무 깁니다 (길이: "
               ++ str_of_int (slen (content e)) ++ "). 스킵: "
               ++ file_path e) ;;;
        generate_from rest strategies_per_code skip_errors sft_dataset
      else
        let selected_strategies :=
          slice_to strategies_per_code strategies in
        sft_dataset <-
          apply_strategies skip_errors selected_strategies e sft_dataset ;;
        generate_from rest strategies_per_code skip_errors sft_dataset
  end.

Definition generate_sft_data (code_entries : list code_entry)
    (strategies_per_code : Z) (skip_errors : bool)
  : M (list sft_entry) :=
  generate_from code_entries strategies_per_code skip_errors [].

End Generator.

(** The command line, after argparse. *)
Record args : Type := mk_args {
  input_json : string;
  output_json : string;
  max_code_length_arg : Z;
  strategies_per_code_arg : Z;
  sample_size : option Z
}.

(** The truth value of [args.sample_size]: None and 0 are false. *)
Definition truthy (v : option Z) : bool :=
  match v with
  | Some n => negb (n =? 0)
  | None => false
  end.

(** Lines 449-452 of [main]: the optional truncation. *)
Definition sample (v : option Z) (code_entries : list code_entry)
  : M (list code_entry) :=
  match v with
  | Some n =>
      if truthy v then
        print ("🔬 샘플링: " ++ str_of_int n ++ "개만 사용") ;;;
        ret (slice_to n code_entries)
      else ret code_entries
  | None => ret code_entries
  end.

(** [main] up to the JSON dump, whose content it returns; [loaded] is
    what json.load read from the input file. *)
Definition main (llm : nat -> list message -> result string)
    (lower : string -> string) (int_mul_0_7 : Z -> Z)
    (a : args) (loaded : list code_entry) : M (list sft_entry) :=
  print ("📂 입력 파일 로딩: " ++ input_json a) ;;;
  print ("✅ 총 " ++ str_of_int (len loaded) ++ "개의 코드 파일 로드됨") ;;;
  code_entries <- sample (sample_size a) loaded ;;
  print "🤖 Azure OpenAI 초기화 중..." ;;;
  print "🔧 SFT 데이터 생성 시작..." ;;;
  sft_dataset <-
    generate_sft_data llm lower int_mul_0_7 (max_code_length_arg a)
      code_entries (strategies_per_code_arg a) true ;;
  ret sft_dataset.

(** The statistics at the end of [main]: one counter per strategy tag. *)
Definition strategy_counts (sft_dataset : list sft_entry)
  : list (string * Z) :=
  tally String.eqb (map (fun entry => strategy (meta entry)) sft_dataset).

(** The tags the four strategies of the menu write into the metadata, in
    the order of the menu. *)
Definition menu_tags : list string :=
  [ "code_documentation"; "code_completion"; "function_implementation";
    "code_summary" ].

(** The records the generator does not skip for their length. *)
Definition short_enough (max_code_length : Z) (e : code_entry) : bool :=
  negb (max_code_length <? slen (content e)).

End SFT.

(** ** unsloth/train/cpt_train.py *)

Module Train.

Definition CPT_CODE_PROMPT : string :=
  nl ++ "# File: {file_path}" ++ nl
  ++ nl
  ++ "# Code Content:" ++ nl
  ++ "{content}" ++ nl.

(** *** [str.format]

    The part of the format mini-language the template uses: literal
    text, doubled braces, and replacement fields that hold a bare name,
    a number or nothing (no conversion, no format spec, no attribute or
    index lookup). *)

Definition is_digit (c : ascii) : bool :=
  let n := nat_of_ascii c in ((48 <=? n) && (n <=? 57))%nat.

Fixpoint all_digits (s : string) : bool :=
  match s with
  | EmptyString => true
  | String c s' => is_digit c && all_digits s'
  end.

Fixpoint nat_of_digits (s : string) (acc : nat) : nat :=
  match s with
  | EmptyString => acc
  | String c s' => nat_of_digits s' (10 * acc + (nat_of_ascii c - 48))%nat
  end.

Fixpoint kwargs_get (kwargs : list (string * string)) (key : string)
  : option string :=
  match kwargs with
  | [] => None
  | (k, v) :: rest => if String.eqb k key then Some v else kwargs_get rest key
  end.

(** The value of one replacement field; [auto] is the next automatic
    index. *)
Definition get_field (name : string) (args : list string)
    (kwargs : list (string * string)) (auto : nat) : result (string * nat) :=
  match name with
  | EmptyString =>
      match nth_error args auto with
      | Some v => Ok (v, S auto)
      | None =>
          Raise (IndexError
            "Replacement index out of range for positional args tuple")
      end
  | _ =>
      if all_digits name then
        match nth_error args (nat_of_digits name 0) with
        | Some v => Ok (v, auto)
        | None =>
            Raise (IndexError
              "Replacement index out of range for positional args tuple")
        end
      else
        match kwargs_get kwargs name with
        | Some v => Ok (v, auto)
        | None => Raise (KeyError name)
        end
  end.

(** One pass over the template, left to right; [field] holds the name
    being read when inside a replacement field. *)
Fixpoint format_from (s : string) (field : option string)
    (args : list string) (kwargs : list (string * string)) (auto : nat)
  : result string :=
  match field, s with
  | None, EmptyString => Ok EmptyString
  | None, String "{"%char (String "{"%char rest) =>
      bind (format_from rest None args kwargs auto) (fun out =>
        Ok (String "{"%char out))
  | None, String "{"%char rest =>
      format_from rest (Some EmptyString) args kwargs auto
  | None, String "}"%char (String "}"%char rest) =>
      bind (format_from rest None args kwargs auto) (fun out =>
        Ok (String "}"%char out))
  | None, String "}"%char _ =>
      Raise (ValueError "Single '}' encountered in format string")
  | None, String c rest =>
      bind (format_from rest None args kwargs auto) (fun out =>
        Ok (String c out))
  | Some name, EmptyString =>
      Raise (ValueError "expected '}' before end of string")
  | Some name, String "}"%char rest =>
      bind (get_field name args kwargs auto) (fun va =>
      bind (format_from rest None args kwargs (snd va)) (fun out =>
        Ok (fst va ++ out)))
  | Some name, String "{"%char _ =>
      Raise (ValueError "unexpected '{' in field name")
  | Some name, String c rest =>
      format_from rest (Some (name ++ String c EmptyString)) args kwargs auto
  end.

(** [template.format] with its positional and keyword arguments. *)
Definition format (template : string) (args : list string)
    (kwargs : list (string * string)) : result string :=
  format_from template None args kwargs 0.

(** *** The datasets library, as far as the driver uses it

    A dataset is a table: column names with their values, all columns of
    one length.  A batch handed to a mapped function is a table too. *)

Definition Dataset : Type := list (string * list string).
Definition DatasetDict : Type := list (string * Dataset).

Definition num_rows (d : Dataset) : nat :=
  match d with
  | [] => O
  | (_, values) :: _ => List.length values
  end.

Fixpoint column (d : Dataset) (c : string) : result (list string) :=
  match d with
  | [] => Raise (KeyError c)
  | (k, values) :: rest => if String.eqb k c then Ok values else column rest c
  end.

(** All columns of a table have the length of the first. *)
Definition rectangular (d : Dataset) : Prop :=
  Forall (fun kv => List.length (snd kv) = num_rows d) d.

(** [dataset_dict[split]] *)
Fixpoint getitem (dd : DatasetDict) (split : string) : result Dataset :=
  match dd with
  | [] => Raise (KeyError split)
  | (k, d) :: rest => if String.eqb k split then Ok d else getitem rest split
  end.

(** Appending the rows of [d2] under [d1]: the same columns are
    required. *)
Fixpoint append_rows (d1 d2 : Dataset) : result Dataset :=
  match d1 with
  | [] => Ok []
  | (k, values) :: rest =>
      bind (match column d2 k with
            | Ok v2 => Ok v2
            | Raise _ =>
                Raise (ValueError "The features can't be aligned")
            end) (fun v2 =>
      bind (append_rows rest d2) (fun rest' =>
        Ok ((k, (values ++ v2)%list) :: rest')))
  end.

Fixpoint concatenate_from (acc : Dataset) (ds : list Dataset)
  : result Dataset :=
  match ds with
  | [] => Ok acc
  | d :: rest =>
      if negb (List.length acc =? List.length d)%nat then
        Raise (ValueError "The features can't be aligned")
      else bind (append_rows acc d) (fun acc' => concatenate_from acc' rest)
  end.

(** [concatenate_datasets(dsets)] *)
Definition concatenate_datasets (dsets : list Dataset) : result Dataset :=
  match dsets with
  | [] => Raise (ValueError "Unable to concatenate an empty list of datasets.")
  | d :: rest => concatenate_from d rest
  end.

Definition batch_size : nat := 1000.

(** Rows [i, i + n) of every column. *)
Definition slice_rows (d : Dataset) (i n : nat) : Dataset :=
  map (fun kv => (fst kv, firstn n (skipn i (snd kv)))) d.

(** Writing one column into a table: replaced where it exists, added
    at the end otherwise. *)
Fixpoint set_column (d : Dataset) (c : string) (values : list string)
  : Dataset :=
  match d with
  | [] => [(c, values)]
  | (k, v) :: rest =>
      if String.eqb k c then (k, values) :: rest
      else (k, v) :: set_column rest c values
  end.

(** The batches of a mapped dataset, [n] of them starting at row [i]. *)
Fixpoint map_batches (f : Dataset -> result (string * list string))
    (d : Dataset) (i n : nat) : result (list Dataset) :=
  match n with
  | O => Ok []
  | S n' =>
      let batch := slice_rows d i batch_size in
      bind (f batch) (fun out =>
      bind (map_batches f d (i + batch_size) n') (fun rest =>
        Ok (set_column batch (fst out) (snd out) :: rest)))
  end.

(** [dataset.map(f, batched=True)]: an empty dataset is returned as it
    is, without a call of [f]. *)
Definition dataset_map (f : Dataset -> result (string * list string))
    (d : Dataset) : result Dataset :=
  if (num_rows d =? 0)%nat then Ok d
  else
    let n := ((num_rows d + batch_size - 1) / batch_size)%nat in
    bind (map_batches f d 0 n) concatenate_datasets.

(** [dataset[0]]: the first row. *)
Definition first_row (d : Dataset) : result (list (string * string)) :=
  if (num_rows d =? 0)%nat then
    Raise (IndexError "Invalid key: 0 is out of bounds for size 0")
  else Ok (map (fun kv => (fst kv, hd EmptyString (snd kv))) d).

(** *** The driver *)

(** The loop body of [formatting_prompts_func]. *)
Fixpoint format_rows (EOS_TOKEN : string) (rows : list (string * string))
    (outputs : list string) : result (list string) :=
  match rows with
  | [] => Ok outputs
  | (file_path, content) :: rest =>
      bind (format CPT_CODE_PROMPT [file_path; content] []) (fun text =>
        format_rows EOS_TOKEN rest (outputs ++ [(text ++ EOS_TOKEN)%string])%list)
  end.

Definition formatting_prompts_func (EOS_TOKEN text_column : string)
    (examples : Dataset) : result (string * list string) :=
  bind (column examples "file_path") (fun file_paths =>
  bind (column examples "content") (fun contents =>
  bind (format_rows EOS_TOKEN (combine file_paths contents) []) (fun outputs =>
    Ok (text_column, outputs)))).

Definition endswith (s suffix : string) : bool :=
  let n := String.length s in
  let k := String.length suffix in
  ((k <=? n)%nat && String.eqb (substring (n - k) k s) suffix).

(** How [load_dataset] is called. *)
Inductive load_call : Type :=
| LoadJson (data_files : string)
| LoadHub (path : string).

(** The branch on the suffix of the source. *)
Definition load_call_of (source : string) : load_call :=
  if endswith source ".json" then LoadJson source else LoadHub source.

(** [for source in data_sources]: [dataset] is the loop's variable, still
    bound after the loop to what the last iteration loaded. *)
Fixpoint load_sources (load_dataset : load_call -> result DatasetDict)
    (data_sources : list string)
    (datasets_to_combine : list Dataset) (dataset : option DatasetDict)
  : result (list Dataset * option DatasetDict) :=
  match data_sources with
  | [] => Ok (datasets_to_combine, dataset)
  | source :: rest =>
      bind (load_dataset (load_call_of source)) (fun dataset =>
      bind (getitem dataset "train") (fun train =>
        load_sources load_dataset rest
          (datasets_to_combine ++ [train])%list (Some dataset)))
  end.

(** A value that can be passed as [train_dataset]. *)
Inductive pyobj : Type :=
| ADataset (d : Dataset)
| ADatasetDict (dd : DatasetDict).

(** The keyword arguments of [UnslothTrainer] that concern the data. *)
Record trainer_call : Type := mk_trainer_call {
  train_dataset : pyobj;
  dataset_text_field : string
}.

(** [main] from the loading of the sources to the construction of the
    trainer, for a given mapped function. *)
Definition main_with (f : Dataset -> result (string * list string))
    (load_dataset : load_call -> result DatasetDict)
    (data_sources : list string) (text_column : string)
  : result trainer_call :=
  bind (load_sources load_dataset data_sources [] None) (fun loaded =>
  bind (concatenate_datasets (fst loaded)) (fun combined_dataset =>
  bind (dataset_map f combined_dataset) (fun combined_dataset =>
  bind (first_row combined_dataset) (fun _ =>
    match snd loaded with
    | Some dataset =>
        Ok {| train_dataset := ADatasetDict dataset;
              dataset_text_field := text_column |}
    | None => Raise (Exception "UnboundLocalError: dataset")
    end)))).

Definition main (EOS_TOKEN : string)
    (load_dataset : load_call -> result DatasetDict)
    (data_sources : list string) (text_column : string)
  : result trainer_call :=
  main_with (formatting_prompts_func EOS_TOKEN text_column)
    load_dataset data_sources text_column.

(** The text the spec asks for: the template with both values put in,
    then the end-of-sequence marker. *)
Definition expected_text (EOS_TOKEN file_path content : string) : string :=
  nl ++ "# File: " ++ file_path ++ nl
  ++ nl
  ++ "# Code Content:" ++ nl
  ++ content ++ nl
  ++ EOS_TOKEN.

(** The same function with the two values passed by keyword. *)
Fixpoint format_rows_kw (EOS_TOKEN : string) (rows : list (string * string))
    (outputs : list string) : result (list string) :=
  match rows with
  | [] => Ok outputs
  | (file_path, content) :: rest =>
      bind (format CPT_CODE_PROMPT []
              [("file_path", file_path); ("content", content)]) (fun text =>
        format_rows_kw EOS_TOKEN rest (outputs ++ [(text ++ EOS_TOKEN)%string])%list)
  end.

Definition formatting_prompts_func_kw (EOS_TOKEN text_column : string)
    (examples : Dataset) : result (string * list string) :=
  bind (column examples "file_path") (fun file_paths =>
  bind (column examples "content") (fun contents =>
  bind (format_rows_kw EOS_TOKEN (combine file_paths contents) [])
    (fun outputs => Ok (text_column, outputs)))).

End Train.

(** ** Concrete inputs *)

Module Samples.

(** A stream of one record whose path ends in ".py". *)
Definition one_python_file : list Filtering.example :=
  [ Filtering.mk_example (Some "octo/demo") None (Some "a.py")
      (Some "print(1)") ].

(** Five records, two of them Python. *)
Definition five_records : list Filtering.example :=
  [ Filtering.mk_example None None (Some "README.md") (Some "# doc");
    Filtering.mk_example None None (Some "src/a.py") (Some "x = 1");
    Filtering.mk_example None None None (Some "lost");
    Filtering.mk_example None None (Some "lib/B.PY") (Some "y = 2");
    Filtering.mk_example None None (Some "main.c") (Some "int x;") ].

(** A tokenizer: one token per character. *)
Definition encode (code : string) : list Z :=
  map (fun c => Z.of_nat (nat_of_ascii c)) (list_ascii_of_string code).

Definition text_file (code : string) : Harvester.file_data :=
  Harvester.mk_file_data (slen code) (Some code) None.

(** A directory that holds one hidden file and nothing else. *)
Definition hidden_only : list Harvester.node :=
  [ Harvester.File ".gitignore" (text_file "*.o") ].

(** A directory with two files, one of them in a subdirectory. *)
Definition small_tree : list Harvester.node :=
  [ Harvester.Dir "src" [ Harvester.File "main.c" (text_file "int x;") ];
    Harvester.File "notes.txt" (text_file "hello world") ].

(** A directory with an empty subdirectory only. *)
Definition no_files : list Harvester.node :=
  [ Harvester.Dir "empty" [] ].

(** Chat models: one that always answers, one that fails on its second
    call. *)
Definition llm_ok (k : nat) (messages : list SFT.message) : result string :=
  Ok "reply".

Definition llm_fails_second (k : nat) (messages : list SFT.message)
  : result string :=
  if (k =? 1)%nat then Raise (Exception "rate limit") else Ok "reply".

(** A stand-in for [int(n * 0.7)]. *)
Definition int_mul_0_7 (n : Z) : Z := 7 * n / 10.

Definition short_entry : SFT.code_entry :=
  SFT.mk_code_entry "octo/demo" "a.py" "print(1)" 8.

Definition other_entry : SFT.code_entry :=
  SFT.mk_code_entry "octo/demo" "b.py" "print(2)" 8.

Definition start : SFT.state := SFT.mk_state 0 [].

(** Two JSON sources of one record each. *)
Definition dataset_a : Train.Dataset :=
  [ ("file_path", ["a.py"]); ("content", ["x = 1"]) ].

Definition dataset_b : Train.Dataset :=
  [ ("file_path", ["b.py"]); ("content", ["y = 2"]) ].

Definition load_dataset (c : Train.load_call) : result Train.DatasetDict :=
  match c with
  | Train.LoadJson "a.json" => Ok [("train", dataset_a)]
  | Train.LoadJson "b.json" => Ok [("train", dataset_b)]
  | _ => Raise (Exception "FileNotFoundError")
  end.

Definition two_sources : list string := ["a.json"; "b.json"].

(** A loader that finds the same one-record dataset under every name. *)
Definition load_same (c : Train.load_call) : result Train.DatasetDict :=
  Ok [("train", dataset_a)].

(** A checking list with ties at both ends. *)
Definition tied_counts : list (Z * string) :=
  [ (3, "a.c"); (5, "b.c"); (5, "c.c"); (3, "d.c") ].

Definition tied_stats : Harvester.stats :=
  Harvester.mk_stats (5, "b.c") (3, "a.c") (16 # 4).

(** A command line of the generator. *)
Definition generator_args : SFT.args :=
  SFT.mk_args "in.json" "out/sft.json" 2000 3 None.

End Samples.

(** * Properties *)

(** ** Shared facts about results and lists *)

Lemma str_in_iff (x : string) (l : list string) :
  str_in x l = true <-> In x l.
Proof.
  unfold str_in. rewrite existsb_exists. split.
  - intros [y [Hy Heq]]. apply String.eqb_eq in Heq. now subst.
  - intros H. exists x. split; [assumption | apply String.eqb_refl].
Qed.

Lemma len_app {A} (l1 l2 : list A) : len (l1 ++ l2)%list = len l1 + len l2.
Proof. unfold len. rewrite length_app. lia. Qed.

Lemma len_nonneg {A} (l : list A) : 0 <= len l.
Proof. unfold len. lia. Qed.

(** ** The language classifier *)

Section Classifier.

Variable lower : string -> string.

Lemma find_language_owner (table : list (string * list string))
    (ext language : string) :
  NoDup (concat (map snd table)) ->
  Filtering.owns_in table language ext ->
  Filtering.find_language table ext = Some language.
Proof.
  induction table as [| [l0 e0] rest IH]; intros Hnd [exts [Hin Hext]].
  - destruct Hin.
  - simpl in *. destruct Hin as [Heq | Hin].
    + inversion Heq; subst.
      apply str_in_iff in Hext. now rewrite Hext.
    + assert (Hrest : In ext (concat (map snd rest))).
      { apply in_concat. exists exts. split; [| assumption].
        apply in_map_iff. now exists (language, exts). }
      destruct (str_in ext e0) eqn:Hhere.
      * apply str_in_iff in Hhere.
        exfalso. revert Hnd Hhere Hrest. clear.
        induction e0 as [| a e0 IHe]; simpl; intros Hnd Hhere Hrest.
        -- destruct Hhere.
        -- inversion Hnd as [| ? ? Hnot Hnd']; subst.
           destruct Hhere as [-> | Hhere].
           ++ apply Hnot. apply in_or_app. now right.
           ++ now apply IHe.
      * apply IH.
        -- now apply NoDup_app_remove_l in Hnd.
        -- now exists exts.
Qed.

Lemma find_language_sound (table : list (string * list string))
    (ext language : string) :
  Filtering.find_language table ext = Some language ->
  Filtering.owns_in table language ext.
Proof.
  induction table as [| [l0 e0] rest IH]; simpl; intros H.
  - discriminate.
  - destruct (str_in ext e0) eqn:Hhere.
    + inversion H; subst. exists e0. split; [now left |].
      now apply str_in_iff.
    + destruct (IH H) as [exts [Hin Hext]].
      exists exts. split; [now right | assumption].
Qed.

Lemma allowed_extensions_distinct :
  NoDup (concat (map snd Filtering.ALLOWED_LANGUAGES)).
Proof.
  assert (H : nodup string_dec (concat (map snd Filtering.ALLOWED_LANGUAGES))
              = concat (map snd Filtering.ALLOWED_LANGUAGES))
    by (vm_compute; reflexivity).
  rewrite <- H. apply NoDup_nodup.
Qed.

(** C6. For a path whose lowercased extension is listed in the table, the
    classifier returns the language that lists it, and no other language
    lists it; for a path whose extension no language lists, it returns
    None. *)
Theorem classifier_returns_unique_owner (file_path : string) :
  let ext := Filtering.extension lower file_path in
  (forall language, Filtering.owns language ext ->
     Filtering.get_language_from_filepath lower file_path = Some language)
  /\ (forall l1 l2, Filtering.owns l1 ext -> Filtering.owns l2 ext -> l1 = l2)
  /\ ((forall language, ~ Filtering.owns language ext) ->
      Filtering.get_language_from_filepath lower file_path = None).
Proof.
  intros ext.
  assert (Hown : forall language, Filtering.owns language ext ->
            Filtering.get_language_from_filepath lower file_path
            = Some language).
  { intros language H. unfold Filtering.get_language_from_filepath.
    apply find_language_owner; [apply allowed_extensions_distinct | exact H]. }
  split; [exact Hown | split].
  - intros l1 l2 H1 H2. apply Hown in H1. apply Hown in H2. congruence.
  - intros Hnone.
    destruct (Filtering.get_language_from_filepath lower file_path)
      as [language |] eqn:Hres; [| reflexivity].
    exfalso. apply (Hnone language).
    now apply find_language_sound.
Qed.

End Classifier.

Lemma classifier_returns_unique_owner_witness :
  Filtering.get_language_from_filepath ascii_lower "src/Main.JAVA" = Some "java"
  /\ Filtering.get_language_from_filepath ascii_lower "docs/README" = None.
Proof.
  split.
  - apply (classifier_returns_unique_owner ascii_lower "src/Main.JAVA").
    exists [".java"]. split; simpl; auto 10.
  - apply (classifier_returns_unique_owner ascii_lower "docs/README").
    intros language [exts [Hin Hext]].
    simpl in Hin.
    repeat (destruct Hin as [Heq | Hin];
            [inversion Heq; subst; simpl in Hext; intuition discriminate |]).
    destruct Hin.
Defined.

(** ** The collector *)

Section Collector.

Variable lower : string -> string.
Variable languages : list string.

Lemma detected_in_wanted (ex : Filtering.example) (fp : string) :
  Filtering.detected_in
    (Filtering.get_language_from_filepath lower fp) languages = true ->
  Filtering.wanted lower languages (Filtering.make_record ex fp).
Proof.
  unfold Filtering.wanted, Filtering.detected_in. simpl.
  destruct (Filtering.get_language_from_filepath lower fp) as [l |];
    [| discriminate].
  intros H. exists l. split; [reflexivity | now apply str_in_iff].
Qed.

(** Every collected record is a wanted one, whatever the target. *)
Lemma collect_only_wanted (sample_size : Z) (stream : list Filtering.example) :
  forall collected total,
    Forall (Filtering.wanted lower languages) collected ->
    Forall (Filtering.wanted lower languages)
      (fst (Filtering.collect lower languages sample_size stream
              collected total)).
Proof.
  induction stream as [| ex rest IH]; intros collected total Hall; simpl.
  - exact Hall.
  - destruct (Filtering.ex_file_path ex) as [fp |]; [| now apply IH].
    set (collected' :=
           if Filtering.detected_in
                (Filtering.get_language_from_filepath lower fp) languages
           then (collected ++ [Filtering.make_record ex fp])%list
           else collected).
    assert (Hall' : Forall (Filtering.wanted lower languages) collected').
    { subst collected'.
      destruct (Filtering.detected_in _ languages) eqn:Hd; [| exact Hall].
      apply Forall_app. split; [exact Hall |].
      constructor; [| constructor]. now apply detected_in_wanted. }
    destruct (sample_size <=? len collected'); [exact Hall' | now apply IH].
Qed.

(** While the target has not been reached at the head of the loop, it is
    never exceeded. *)
Lemma collect_within_target (sample_size : Z)
    (stream : list Filtering.example) :
  forall collected total,
    len collected < sample_size ->
    len (fst (Filtering.collect lower languages sample_size stream
                collected total)) <= sample_size.
Proof.
  induction stream as [| ex rest IH]; intros collected total Hlt; simpl.
  - lia.
  - destruct (Filtering.ex_file_path ex) as [fp |]; [| now apply IH].
    set (collected' :=
           if Filtering.detected_in
                (Filtering.get_language_from_filepath lower fp) languages
           then (collected ++ [Filtering.make_record ex fp])%list
           else collected).
    assert (Hle : len collected' <= sample_size).
    { subst collected'. destruct (Filtering.detected_in _ languages).
      - rewrite len_app. unfold len at 2. simpl. lia.
      - lia. }
    destruct (sample_size <=? len collected') eqn:Hstop.
    + exact Hle.
    + apply IH. apply Z.leb_gt in Hstop. exact Hstop.
Qed.

(** For a target of at least one record the collector returns at most
    that many records, each of a requested language. *)
Lemma main_bound_for_positive_target (sample_size : Z)
    (stream : list Filtering.example) (collected : list Filtering.code_record) :
  1 <= sample_size ->
  Filtering.main lower languages sample_size stream = Ok collected ->
  len collected <= sample_size /\ Forall (Filtering.wanted lower languages) collected.
Proof.
  unfold Filtering.main. intros Hpos.
  destruct (Filtering.validate_languages languages); simpl; [| discriminate].
  intros H. inversion H; subst. split.
  - apply collect_within_target. unfold len. simpl. lia.
  - apply collect_only_wanted. constructor.
Qed.

(** With a target of zero the loop still runs its body once. *)
Lemma collect_at_most_one_at_zero (stream : list Filtering.example) :
  len (fst (Filtering.collect lower languages 0 stream [] 0)) <= 1.
Proof.
  assert (H : forall total,
             len (fst (Filtering.collect lower languages 0 stream [] total))
             <= 1).
  { induction stream as [| ex rest IH]; intros total; simpl.
    - unfold len. simpl. lia.
    - destruct (Filtering.ex_file_path ex) as [fp |]; [| apply IH].
      destruct (Filtering.detected_in _ languages); simpl.
      + unfold len. simpl. lia.
      + unfold len. simpl. lia. }
  apply H.
Qed.

End Collector.

(** C3. Asked for zero Python records, on a stream whose first record is a
    Python file, the collector returns that record: one more than asked. *)
Theorem collector_exceeds_zero_target :
  exists collected,
    Filtering.main ascii_lower ["python"] 0 Samples.one_python_file
    = Ok collected
    /\ len collected = 1
    /\ ~ len collected <= 0.
Proof.
  eexists. split; [vm_compute; reflexivity |].
  split; [reflexivity | unfold len; simpl; lia].
Qed.

(** The scenario of the spec: two of five records are Python files and
    both are returned, in the order of the stream. *)
Example collector_scenario :
  option_map (map Filtering.file_path)
    (match Filtering.main ascii_lower ["python"] 2 Samples.five_records with
     | Ok l => Some l
     | Raise _ => None
     end)
  = Some ["src/a.py"; "lib/B.PY"].
Proof. vm_compute. reflexivity. Qed.

(** ** The local harvester *)

Section Harvest.

Import Harvester.

Variable encode : string -> list Z.
Variable repo : string.

(** Induction over a directory tree. *)
Lemma node_forall_ind (P : node -> Prop) :
  (forall x d, P (File x d)) ->
  (forall x sub, Forall P sub -> P (Dir x sub)) ->
  forall n, P n.
Proof.
  intros HF HD. fix IH 1. intros [x d | x sub].
  - apply HF.
  - apply HD. induction sub as [| c sub' IHsub]; constructor.
    + apply IH.
    + exact IHsub.
Qed.

Lemma regular_files_app (p q : list (string * node)) :
  regular_files (p ++ q) = (regular_files p ++ regular_files q)%list.
Proof. unfold regular_files. apply filter_app. Qed.

(** The files "*" finds in one directory. *)
Lemma regular_files_glob1 (d : string) (children : list node) :
  List.length
    (regular_files
       (map (fun n => (join d (node_name n), n)) (glob1 children)))
  = direct_files children.
Proof.
  unfold direct_files, regular_files, glob1, visible_file.
  induction children as [| c rest IH]; simpl; [reflexivity |].
  destruct (ishidden (node_name c)); simpl.
  - rewrite andb_false_r. exact IH.
  - rewrite andb_true_r. destruct (isdir c); simpl; now rewrite IH.
Qed.

Lemma regular_files_glob_dirs (dirs : list (string * list node)) :
  List.length
    (regular_files
       (flat_map
          (fun d => map (fun n => (join (fst d) (node_name n), n))
                      (glob1 (snd d)))
          dirs))
  = list_sum (map (fun d => direct_files (snd d)) dirs).
Proof.
  induction dirs as [| d rest IH]; simpl; [reflexivity |].
  rewrite regular_files_app, length_app, regular_files_glob1, IH.
  reflexivity.
Qed.

Lemma direct_files_cons (c : node) (rest : list node) :
  direct_files (c :: rest)
  = ((if visible_file c then 1 else 0) + direct_files rest)%nat.
Proof. unfold direct_files. simpl. now destruct (visible_file c). Qed.

(** The files of a subtree are those of the directories "**" lists in
    it, plus the node itself when it is a visible file. *)
Lemma count_visible_node (n : node) :
  (list_sum (map (fun d => direct_files (snd d)) (rlistdir_node n))
   + (if visible_file n then 1 else 0))%nat
  = count_visible_files n.
Proof.
  induction n as [x d | x sub IH] using node_forall_ind.
  - unfold visible_file. simpl. now destruct (ishidden x).
  - unfold visible_file. simpl. destruct (ishidden x); simpl; [reflexivity |].
    rewrite map_map. simpl. rewrite Nat.add_0_r.
    induction IH as [| c rest Hc _ IHrest]; simpl; [reflexivity |].
    rewrite direct_files_cons, map_app, list_sum_app.
    rewrite <- Hc. rewrite Nat.add_comm in IHrest |- *.
    rewrite <- IHrest. lia.
Qed.

Lemma count_visible_children (children : list node) :
  (direct_files children
   + list_sum (map (fun d => direct_files (snd d)) (rlistdir children)))%nat
  = list_sum (map count_visible_files children).
Proof.
  unfold rlistdir.
  induction children as [| c rest IH]; simpl; [reflexivity |].
  rewrite direct_files_cons, map_app, list_sum_app.
  rewrite <- IH, <- (count_visible_node c). lia.
Qed.

(** The glob matches exactly the files reached through names without a
    leading dot. *)
Lemma glob_recursive_files (root : list node) :
  List.length (regular_files (glob_recursive root))
  = list_sum (map count_visible_files root).
Proof.
  unfold glob_recursive.
  rewrite regular_files_glob_dirs. simpl.
  apply count_visible_children.
Qed.

(** What the loop adds: one record per file among the paths, with a
    token count that is a length, in step with the checking list. *)
Lemma harvest_ok (paths : list (string * node)) :
  forall dataset check dataset' check',
    harvest encode repo paths dataset check = Ok (dataset', check') ->
    List.length dataset'
    = (List.length dataset + List.length (regular_files paths))%nat
    /\ (Forall (fun e => 0 <= token_size e) dataset ->
        Forall (fun e => 0 <= token_size e) dataset')
    /\ (map check_of dataset = check -> map check_of dataset' = check').
Proof.
  induction paths as [| [rel n] rest IH]; intros dataset check dataset' check' H.
  - simpl in H. inversion H; subst. simpl. rewrite Nat.add_0_r. auto.
  - destruct n as [x d | x sub]; simpl in H.
    + destruct (read_code d) as [code | e]; simpl in H; [| discriminate].
      apply IH in H. destruct H as [Hlen [Htok Hchk]].
      unfold regular_files in *. simpl.
      rewrite length_app in Hlen. simpl in Hlen.
      split; [lia | split].
      * intros Hall. apply Htok. apply Forall_app. split; [exact Hall |].
        constructor; [| constructor]. simpl. apply len_nonneg.
      * intros Hmap. apply Hchk. rewrite map_app, Hmap. reflexivity.
    + apply IH in H. unfold regular_files in *. simpl. exact H.
Qed.

(** The loop fails only on a file that neither encoding can read. *)
Lemma harvest_readable (paths : list (string * node)) :
  (forall rel x d, In (rel, File x d) paths -> readable d = true) ->
  forall dataset check,
    exists r, harvest encode repo paths dataset check = Ok r.
Proof.
  induction paths as [| [rel n] rest IH]; intros Hread dataset check.
  - simpl. eauto.
  - destruct n as [x d | x sub]; simpl.
    + assert (Hd : readable d = true) by (apply (Hread rel x); now left).
      assert (Hcode : exists code, read_code d = Ok code).
      { unfold readable in Hd. unfold read_code.
        destruct (read_default d); [eauto |].
        destruct (read_cp949 d); [eauto | discriminate]. }
      destruct Hcode as [code ->]. simpl.
      apply IH. intros rel' x' d' Hin. apply (Hread rel' x'). now right.
    + apply IH. intros rel' x' d' Hin. apply (Hread rel' x'). now right.
Qed.

Lemma rlistdir_node_readable (n : node) :
  all_readable n = true ->
  Forall (fun d => forallb all_readable (snd d) = true) (rlistdir_node n).
Proof.
  induction n as [x d | x sub IH] using node_forall_ind; simpl; intros H.
  - constructor.
  - destruct (ishidden x); simpl in H; [constructor |].
    constructor; [exact H |].
    apply Forall_map. simpl.
    apply Forall_flat_map.
    rewrite forallb_forall in H. rewrite Forall_forall in IH |- *.
    intros c Hc. apply IH; [exact Hc | now apply H].
Qed.

Lemma glob_recursive_readable (root : list node) :
  forallb all_readable root = true ->
  forall rel x d, In (rel, File x d) (glob_recursive root) -> readable d = true.
Proof.
  intros Hroot rel x d Hin.
  unfold glob_recursive in Hin. apply in_flat_map in Hin.
  destruct Hin as [dir [Hdir Hin]].
  assert (Hall : forallb all_readable (snd dir) = true).
  { destruct Hdir as [<- | Hdir]; [exact Hroot |].
    unfold rlistdir in Hdir. apply in_flat_map in Hdir.
    destruct Hdir as [c [Hc Hdir]].
    rewrite forallb_forall in Hroot.
    pose proof (rlistdir_node_readable c (Hroot c Hc)) as Hf.
    rewrite Forall_forall in Hf. now apply Hf. }
  apply in_map_iff in Hin. destruct Hin as [n [Heq Hn]].
  inversion Heq; subst.
  unfold glob1 in Hn. apply filter_In in Hn. destruct Hn as [Hn Hvis].
  rewrite forallb_forall in Hall. specialize (Hall _ Hn).
  simpl in Hall, Hvis. destruct (ishidden x); [discriminate | exact Hall].
Qed.

(** What [main] leaves behind once the loop has gone through. *)
Lemma main_after_harvest (output_path : string) (root : list node)
    (dataset : list data_entry) (check : list (Z * string)) :
  harvest encode repo (glob_recursive root) [] [] = Ok (dataset, check) ->
  firstn 2 (fst (main encode repo output_path root))
  = [JsonDump output_path dataset; PrintSaved (len dataset) output_path]
  /\ snd (main encode repo output_path root)
     = bind (statistics check) (fun _ => Ok tt).
Proof.
  intros H. unfold main. rewrite H.
  destruct (statistics check); simpl; auto.
Qed.

Lemma main_dump_inv (output_path p : string) (root : list node)
    (ds : list data_entry) :
  In (JsonDump p ds) (fst (main encode repo output_path root)) ->
  exists check,
    harvest encode repo (glob_recursive root) [] [] = Ok (ds, check).
Proof.
  unfold main.
  destruct (harvest encode repo (glob_recursive root) [] [])
    as [[dataset check] | e]; simpl; [| intros []].
  intros Hin. exists check.
  assert (Hds : ds = dataset).
  { destruct (statistics check); simpl in Hin;
      repeat (destruct Hin as [Heq | Hin];
              [try discriminate; now inversion Heq |]);
      destruct Hin. }
  now subst.
Qed.

(** C5. The list written by the harvester has one record per file that is
    reached from the root through names without a leading dot (the files
    the recursive glob matches), each with a non-negative token count; and
    the list is written whenever each of those files can be read under
    one of the two encodings. *)
Theorem harvester_output_count (output_path : string) (root : list node) :
  (forall p ds,
     In (JsonDump p ds) (fst (main encode repo output_path root)) ->
     List.length ds = list_sum (map count_visible_files root)
     /\ Forall (fun e => 0 <= token_size e) ds)
  /\ (forallb all_readable root = true ->
      exists ds,
        In (JsonDump output_path ds) (fst (main encode repo output_path root))).
Proof.
  split.
  - intros p ds Hin. apply main_dump_inv in Hin. destruct Hin as [check H].
    apply harvest_ok in H. destruct H as [Hlen [Htok _]].
    rewrite glob_recursive_files in Hlen. simpl in Hlen.
    split; [exact Hlen | apply Htok; constructor].
  - intros Hread.
    destruct (harvest_readable (glob_recursive root)
                (glob_recursive_readable root Hread) [] [])
      as [[dataset check] H].
    exists dataset.
    destruct (main_after_harvest output_path root dataset check H) as [Hfst _].
    assert (Hin : In (JsonDump output_path dataset)
                    (firstn 2 (fst (main encode repo output_path root)))).
    { rewrite Hfst. now left. }
    revert Hin. generalize (fst (main encode repo output_path root)).
    intros l Hin.
    rewrite <- (firstn_skipn 2 l). apply in_or_app. now left.
Qed.

End Harvest.

Lemma harvester_output_count_witness :
  exists ds,
    In (Harvester.JsonDump "out.json" ds)
       (fst (Harvester.main Samples.encode "autosar" "out.json"
               Samples.small_tree))
    /\ List.length ds = 2%nat.
Proof.
  destruct (harvester_output_count Samples.encode "autosar" "out.json"
              Samples.small_tree) as [Hcount Hwritten].
  destruct (Hwritten eq_refl) as [ds Hin].
  exists ds. split; [exact Hin |].
  destruct (Hcount "out.json" ds Hin) as [Hlen _].
  exact Hlen.
Defined.

(** C5, as stated: a directory that holds one hidden file has one
    non-directory file under it, yet the list written for it is empty. *)
Lemma harvester_skips_hidden_file :
  fst (Harvester.main Samples.encode "autosar" "out.json" Samples.hidden_only)
  = [Harvester.JsonDump "out.json" []; Harvester.PrintSaved 0 "out.json"]
  /\ list_sum (map Harvester.count_files Samples.hidden_only) = 1%nat
  /\ ~ (forall ds,
          In (Harvester.JsonDump "out.json" ds)
             (fst (Harvester.main Samples.encode "autosar" "out.json"
                     Samples.hidden_only)) ->
          List.length ds
          = list_sum (map Harvester.count_files Samples.hidden_only)).
Proof.
  split; [vm_compute; reflexivity |].
  split; [reflexivity |].
  intros H. specialize (H []).
  assert (Hin : In (Harvester.JsonDump "out.json" [])
                  (fst (Harvester.main Samples.encode "autosar" "out.json"
                          Samples.hidden_only)))
    by (vm_compute; now left).
  apply H in Hin. discriminate Hin.
Qed.

(** ** The statistics after the dump *)

Section Statistics.

Import Harvester.

Lemma max_from_spec (l : list (Z * string)) :
  forall best,
    In (max_from best l) (best :: l)
    /\ Forall (fun x => fst x <= fst (max_from best l)) (best :: l).
Proof.
  induction l as [| x rest IH]; intros best; simpl.
  - split; [now left | constructor; [lia | constructor]].
  - destruct (IH (if fst best <? fst x then x else best)) as [Hin Hall].
    inversion Hall as [| ? ? Hhd Htl]; subst.
    split.
    + destruct Hin as [Heq | Hin]; [| now right; right].
      rewrite <- Heq. destruct (fst best <? fst x); [right | ]; now left.
    + destruct (fst best <? fst x) eqn:Hcmp.
      * apply Z.ltb_lt in Hcmp.
        constructor; [lia | constructor; assumption].
      * apply Z.ltb_ge in Hcmp.
        constructor; [assumption | constructor; [lia | assumption]].
Qed.

Lemma min_from_spec (l : list (Z * string)) :
  forall best,
    In (min_from best l) (best :: l)
    /\ Forall (fun x => fst (min_from best l) <= fst x) (best :: l).
Proof.
  induction l as [| x rest IH]; intros best; simpl.
  - split; [now left | constructor; [lia | constructor]].
  - destruct (IH (if fst x <? fst best then x else best)) as [Hin Hall].
    inversion Hall as [| ? ? Hhd Htl]; subst.
    split.
    + destruct Hin as [Heq | Hin]; [| now right; right].
      rewrite <- Heq. destruct (fst x <? fst best); [right | ]; now left.
    + destruct (fst x <? fst best) eqn:Hcmp.
      * apply Z.ltb_lt in Hcmp.
        constructor; [lia | constructor; assumption].
      * apply Z.ltb_ge in Hcmp.
        constructor; [assumption | constructor; [lia | assumption]].
Qed.

Lemma sum_fold_right (l : list Z) : sum l = fold_right Z.add 0 l.
Proof.
  unfold sum. rewrite <- fold_left_rev_right.
  assert (H : forall l acc,
             fold_right (fun y x => x + y) acc l = acc + fold_right Z.add 0 l).
  { clear. induction l as [| a l IH]; intros acc; simpl; [lia |].
    rewrite IH. lia. }
  rewrite H.
  assert (Hrev : forall l, fold_right Z.add 0 (rev l) = fold_right Z.add 0 l).
  { clear. induction l as [| a l IH]; simpl; [reflexivity |].
    rewrite fold_right_app. simpl.
    assert (Hacc : forall l acc,
               fold_right Z.add acc l = acc + fold_right Z.add 0 l).
    { clear. induction l as [| b l IH]; intros acc; simpl; [lia |].
      rewrite IH. lia. }
    rewrite Hacc, IH. lia. }
  rewrite Hrev. lia.
Qed.

Lemma true_div_positive (a b : Z) :
  0 < b ->
  exists q, true_div a b = Ok q /\ q == inject_Z a / inject_Z b.
Proof.
  intros Hb. unfold true_div.
  destruct b as [| p | p]; try lia. simpl.
  eexists. split; [reflexivity |].
  unfold Qeq, Qdiv, Qmult, Qinv, inject_Z. simpl.
  destruct a; simpl; lia.
Qed.

(** The statistics of a checking list: they fail on the empty list only,
    and otherwise hold an entry of greatest count, an entry of least
    count and the quotient of the sum by the length. *)
Lemma statistics_spec (check : list (Z * string)) :
  (is_raise (statistics check) = true <-> check = [])
  /\ (check <> [] ->
      exists s,
        statistics check = Ok s
        /\ In (max_token_entry s) check
        /\ Forall (fun x => fst x <= fst (max_token_entry s)) check
        /\ In (min_token_entry s) check
        /\ Forall (fun x => fst (min_token_entry s) <= fst x) check
        /\ avg_token_size s
           == inject_Z (fold_right Z.add 0 (map fst check))
              / inject_Z (len check)).
Proof.
  destruct check as [| x rest].
  - split; [split; reflexivity | intros H; now contradiction H].
  - assert (Hlen : 0 < len (x :: rest)) by (unfold len; simpl; lia).
    destruct (true_div_positive (sum (map fst (x :: rest))) _ Hlen)
      as [q [Hq Hqeq]].
    assert (Hstat : statistics (x :: rest)
                    = Ok {| max_token_entry := max_from x rest;
                            min_token_entry := min_from x rest;
                            avg_token_size := q |}).
    { unfold statistics. simpl py_max. simpl py_min. unfold bind at 1 2.
      rewrite Hq. reflexivity. }
    split.
    + rewrite Hstat. simpl. split; discriminate.
    + intros _. eexists. split; [exact Hstat |]. simpl.
      destruct (max_from_spec rest x) as [Hmi Hma].
      destruct (min_from_spec rest x) as [Hni Hna].
      repeat split; try assumption.
      rewrite Hqeq, sum_fold_right. reflexivity.
Qed.

Variable encode : string -> list Z.
Variable repo : string.

(** C8. After a harvest that went through, the statistics step raises if
    and only if nothing was harvested; otherwise the run ends normally and
    prints a greatest token count, a least token count (each that of a
    harvested record, with its file) and the quotient of the sum of the
    token counts by their number. *)
Theorem statistics_fail_iff_empty (output_path : string) (root : list node)
    (dataset : list data_entry) (check : list (Z * string)) :
  harvest encode repo (glob_recursive root) [] [] = Ok (dataset, check) ->
  (is_raise (snd (main encode repo output_path root)) = true <-> dataset = [])
  /\ (dataset <> [] ->
      exists hi lo avg,
        main encode repo output_path root
        = ([JsonDump output_path dataset;
            PrintSaved (len dataset) output_path;
            PrintMax (token_size hi) (file_path hi);
            PrintMin (token_size lo) (file_path lo);
            PrintAvg avg], Ok tt)
        /\ In hi dataset
        /\ Forall (fun e => token_size e <= token_size hi) dataset
        /\ In lo dataset
        /\ Forall (fun e => token_size lo <= token_size e) dataset
        /\ avg == inject_Z (fold_right Z.add 0 (map token_size dataset))
                  / inject_Z (len dataset)).
Proof.
  intros H.
  assert (Hchk : map check_of dataset = check).
  { apply harvest_ok in H. destruct H as [_ [_ Hmap]]. now apply Hmap. }
  assert (Hnil : check = [] <-> dataset = []).
  { rewrite <- Hchk. split; intros Heq.
    - now apply map_eq_nil in Heq.
    - now rewrite Heq. }
  destruct (statistics_spec check) as [Hfail Hok].
  split.
  - unfold main. rewrite H.
    destruct (statistics check) eqn:Hs; simpl in *; now rewrite <- Hnil.
  - intros Hne.
    destruct Hok as [s [Hs [Hmi [Hma [Hni [Hna Havg]]]]]].
    { intros Heq. apply Hne. now apply Hnil. }
    rewrite <- Hchk in Hmi, Hni.
    apply in_map_iff in Hmi. destruct Hmi as [hi [Hhi Hin_hi]].
    apply in_map_iff in Hni. destruct Hni as [lo [Hlo Hin_lo]].
    exists hi, lo, (avg_token_size s).
    split.
    { unfold main. rewrite H, Hs. simpl.
      rewrite <- Hhi, <- Hlo. reflexivity. }
    rewrite <- Hchk in Hma, Hna, Havg.
    rewrite Forall_map in Hma, Hna.
    rewrite <- Hhi in Hma. rewrite <- Hlo in Hna. simpl in Hma, Hna.
    repeat split; try assumption.
    rewrite Havg, map_map. unfold len. rewrite length_map. reflexivity.
Qed.

(** C9. When the glob matches no file, the run writes the empty list to
    the output path, prints the count, and only then fails in [max]:
    the dump is part of what the failed run leaves behind. *)
Theorem empty_harvest_is_written_before_failure (output_path : string)
    (root : list node) :
  regular_files (glob_recursive root) = [] ->
  main encode repo output_path root
  = ([JsonDump output_path []; PrintSaved 0 output_path],
     Raise (ValueError "max() arg is an empty sequence")).
Proof.
  intros Hnone.
  assert (H : forall paths,
             regular_files paths = [] ->
             harvest encode repo paths [] [] = Ok ([], [])).
  { clear. induction paths as [| [rel n] rest IH]; intros Hreg.
    - reflexivity.
    - destruct n as [x d | x sub]; unfold regular_files in *; simpl in *.
      + discriminate.
      + now apply IH. }
  unfold main. rewrite (H _ Hnone). reflexivity.
Qed.

End Statistics.

Lemma statistics_fail_iff_empty_witness :
  is_raise (snd (Harvester.main Samples.encode "autosar" "out.json"
                   Samples.small_tree)) = false
  /\ is_raise (snd (Harvester.main Samples.encode "autosar" "out.json"
                      Samples.no_files)) = true.
Proof.
  split.
  - destruct (statistics_fail_iff_empty Samples.encode "autosar" "out.json"
                Samples.small_tree _ _ eq_refl) as [[Hempty _] _].
    destruct (is_raise _); [| reflexivity].
    specialize (Hempty eq_refl). discriminate Hempty.
  - apply (statistics_fail_iff_empty Samples.encode "autosar" "out.json"
             Samples.no_files _ _ eq_refl).
    reflexivity.
Defined.

Lemma empty_harvest_is_written_before_failure_witness :
  Harvester.main Samples.encode "autosar" "out.json" Samples.no_files
  = ([Harvester.JsonDump "out.json" []; Harvester.PrintSaved 0 "out.json"],
     Raise (ValueError "max() arg is an empty sequence")).
Proof.
  apply (empty_harvest_is_written_before_failure Samples.encode "autosar"
           "out.json" Samples.no_files).
  reflexivity.
Defined.

(** ** The prompt-pair generator *)

Lemma string_app_assoc (a b c : string) : ((a ++ b) ++ c = a ++ (b ++ c))%string.
Proof. induction a as [| x a IH]; simpl; [reflexivity | now rewrite IH]. Qed.

Lemma firstn_incl {A} (n : nat) (l : list A) : incl (firstn n l) l.
Proof.
  intros x Hin. rewrite <- (firstn_skipn n l). apply in_or_app. now left.
Qed.

Lemma slice_to_incl {A} (n : Z) (l : list A) : incl (slice_to n l) l.
Proof. unfold slice_to. destruct (0 <=? n); apply firstn_incl. Qed.

Section Generator.

Import SFT.

Variable llm : nat -> list message -> result string.
Variable lower : string -> string.
Variable int_mul_0_7 : Z -> Z.
Variable max_code_length : Z.

Local Notation "'the_strategies'" := (strategies llm lower int_mul_0_7).
Local Notation "'generate'" :=
  (generate_from llm lower int_mul_0_7 max_code_length).

(** Each strategy of the menu makes one chat call; it fails exactly when
    that call fails, with the call's exception. *)
Lemma strategy_outcome (f : strategy_func)
    (e : code_entry) (st : state) :
  In f the_strategies ->
  exists messages,
    match llm (calls st) messages with
    | Ok _ => exists entry, call f e st = (Ok entry, called st)
    | Raise err => call f e st = (Raise err, called st)
    end.
Proof.
  intros Hin. simpl in Hin.
  destruct Hin as [<- | [<- | [<- | [<- | []]]]]; simpl;
    unfold _generate_code_documentation, _generate_code_completion,
      _generate_function_implementation, _generate_code_summary,
      bindM, invoke, ret;
    eexists;
    match goal with
    | |- context [llm ?k ?m] => destruct (llm k m) eqn:Hcall
    end; rewrite ?Hcall; eauto.
Qed.

(** The length of the prefix of the menu that is selected. *)
Lemma selected_length (n : Z) :
  0 <= n ->
  len (slice_to n the_strategies) = Z.min n 4.
Proof.
  intros Hn. unfold slice_to, len.
  destruct (0 <=? n) eqn:Hle; [| apply Z.leb_gt in Hle; lia].
  rewrite length_firstn. simpl List.length. lia.
Qed.

(** With [skip_errors] set, the inner loop always ends normally, keeps
    what was collected before and adds at most one pair per strategy. *)
Lemma apply_strategies_skip (sel : list (strategy_func))
    (e : code_entry) :
  forall acc st,
    exists added st',
      apply_strategies true sel e acc st = (Ok (acc ++ added)%list, st')
      /\ (List.length added <= List.length sel)%nat.
Proof.
  induction sel as [| f rest IH]; intros acc st; simpl.
  - exists [], st. rewrite app_nil_r. split; [reflexivity | simpl; lia].
  - destruct (call f e st) as [[entry | err] st1].
    + destruct (IH (acc ++ [entry])%list st1) as [added [st' [Heq Hlen]]].
      exists (entry :: added), st'. rewrite Heq, <- app_assoc. simpl.
      split; [reflexivity | lia].
    + unfold bindM, print. simpl.
      destruct (IH acc (logged st1 (error_msg f e err)))
        as [added [st' [Heq Hlen]]].
      exists added, st'. split; [exact Heq | lia].
Qed.

(** When no chat call fails, every selected strategy adds its pair. *)
Lemma apply_strategies_all (sel : list (strategy_func))
    (e : code_entry) (skip_errors : bool) :
  (forall k messages, exists reply, llm k messages = Ok reply) ->
  incl sel the_strategies ->
  forall acc st,
    exists added st',
      apply_strategies skip_errors sel e acc st = (Ok (acc ++ added)%list, st')
      /\ List.length added = List.length sel.
Proof.
  intros Hllm. induction sel as [| f rest IH]; intros Hincl acc st; simpl.
  - exists [], st. rewrite app_nil_r. split; reflexivity.
  - destruct (strategy_outcome f e st (Hincl f (or_introl eq_refl)))
      as [messages Hout].
    destruct (Hllm (calls st) messages) as [reply Hreply].
    rewrite Hreply in Hout. destruct Hout as [entry Hcall]. rewrite Hcall.
    destruct (IH (fun x Hx => Hincl x (or_intror Hx))
                (acc ++ [entry])%list (called st))
      as [added [st' [Heq Hlen]]].
    exists (entry :: added), st'. rewrite Heq, <- app_assoc. simpl.
    split; [reflexivity | lia].
Qed.

(** For a record that is not too long: without failures the generator
    adds as many pairs as the menu has among its first
    [strategies_per_code] entries, that is min(strategies_per_code, 4). *)
Lemma pairs_per_record_without_failure (e : code_entry)
    (strategies_per_code : Z) (skip_errors : bool) (st : state) :
  (forall k messages, exists reply, llm k messages = Ok reply) ->
  slen (content e) <= max_code_length ->
  0 <= strategies_per_code ->
  exists pairs st',
    generate_sft_data llm lower int_mul_0_7 max_code_length
      [e] strategies_per_code skip_errors st = (Ok pairs, st')
    /\ len pairs = Z.min strategies_per_code 4.
Proof.
  intros Hllm Hshort Hn.
  unfold generate_sft_data. simpl.
  apply Z.ltb_ge in Hshort. rewrite Hshort.
  destruct (apply_strategies_all (slice_to strategies_per_code the_strategies)
              e skip_errors Hllm (slice_to_incl _ _) [] st)
    as [added [st' [Heq Hlen]]].
  exists added, st'. unfold bindM. rewrite Heq. simpl.
  split; [reflexivity |].
  rewrite <- (selected_length _ Hn). unfold len. now rewrite Hlen.
Qed.

(** With [skip_errors] set and whatever the chat calls do, a record adds
    at most [strategies_per_code] pairs. *)
Lemma pairs_per_record_with_skips (e : code_entry)
    (strategies_per_code : Z) (st : state) :
  slen (content e) <= max_code_length ->
  0 <= strategies_per_code ->
  exists pairs st',
    generate_sft_data llm lower int_mul_0_7 max_code_length
      [e] strategies_per_code true st = (Ok pairs, st')
    /\ len pairs <= strategies_per_code.
Proof.
  intros Hshort Hn.
  unfold generate_sft_data. simpl.
  apply Z.ltb_ge in Hshort. rewrite Hshort.
  destruct (apply_strategies_skip (slice_to strategies_per_code the_strategies)
              e [] st) as [added [st' [Heq Hlen]]].
  exists added, st'. unfold bindM. rewrite Heq. simpl.
  split; [reflexivity |].
  pose proof (selected_length _ Hn) as Hsel. unfold len in *. lia.
Qed.

End Generator.

(** C4. Asked for five strategies per record, with a chat model that
    never fails, the generator produces four pairs for a short record:
    the menu holds four strategies. *)
Theorem generator_yields_four_for_five :
  exists pairs st',
    SFT.generate_sft_data Samples.llm_ok ascii_lower Samples.int_mul_0_7 2000
      [Samples.short_entry] 5 false Samples.start = (Ok pairs, st')
    /\ len pairs = 4
    /\ len pairs <> 5.
Proof.
  do 2 eexists. split; [vm_compute; reflexivity |].
  split; [reflexivity | unfold len; simpl; lia].
Qed.

Section FailurePolicy.

Import SFT.

Variable llm : nat -> list message -> result string.
Variable lower : string -> string.
Variable int_mul_0_7 : Z -> Z.
Variable max_code_length : Z.

Local Notation "'generate'" :=
  (generate_from llm lower int_mul_0_7 max_code_length).

(** The inner loop over two runs of strategies is the loop over the first
    run followed by the loop over the second. *)
Lemma apply_strategies_app (skip_errors : bool)
    (pre post : list strategy_func) (e : code_entry) :
  forall acc st,
    apply_strategies skip_errors (pre ++ post) e acc st
    = bindM (apply_strategies skip_errors pre e acc)
        (fun acc' => apply_strategies skip_errors post e acc') st.
Proof.
  unfold bindM.
  induction pre as [| f rest IH]; intros acc st; simpl.
  - reflexivity.
  - destruct (call f e st) as [[entry | err] st1].
    + apply IH.
    + destruct skip_errors; [| reflexivity].
      unfold bindM, print. apply IH.
Qed.

Lemma generate_from_app (n : Z) (skip_errors : bool)
    (before after : list code_entry) :
  forall acc st,
    generate (before ++ after) n skip_errors acc st
    = bindM (generate before n skip_errors acc)
        (fun acc' => generate after n skip_errors acc') st.
Proof.
  unfold bindM.
  induction before as [| e rest IH]; intros acc st; simpl.
  - reflexivity.
  - destruct (max_code_length <? slen (content e)).
    + unfold bindM, print. apply IH.
    + unfold bindM.
      destruct (apply_strategies skip_errors _ e acc st) as [[acc' | x] st1].
      * apply IH.
      * reflexivity.
Qed.

Lemma error_msg_ends_with_cause (f : strategy_func) (e : code_entry)
    (err : exn) :
  exists context, error_msg f e err = (context ++ str_of_exn err)%string.
Proof.
  unfold error_msg.
  exists ("❌ 에러 발생 (" ++ name f ++ "): " ++ file_path e ++ nl)%string.
  now rewrite !string_app_assoc.
Qed.

(** C7. Take a run in which the records before [e] and, for [e], the
    strategies before [f] have gone through, and in which the call of
    [f] on [e] raises [err].  With [skip_errors] set, the message of the
    failure is printed and the run goes on with the strategies after [f]
    for the same record, on the pairs collected so far, and then with the
    remaining records.  Without it, the run ends there by raising an
    exception whose message ends with that of [err]. *)
Theorem strategy_failure_policy (skip_errors : bool)
    (before after : list code_entry) (e : code_entry)
    (strategies_per_code : Z)
    (pre post : list strategy_func) (f : strategy_func)
    (acc1 acc2 : list sft_entry) (st0 st1 st2 st3 : state) (err : exn) :
  generate before strategies_per_code skip_errors [] st0 = (Ok acc1, st1) ->
  slen (content e) <= max_code_length ->
  slice_to strategies_per_code (strategies llm lower int_mul_0_7)
  = (pre ++ f :: post)%list ->
  apply_strategies skip_errors pre e acc1 st1 = (Ok acc2, st2) ->
  call f e st2 = (Raise err, st3) ->
  generate_sft_data llm lower int_mul_0_7 max_code_length
    (before ++ e :: after) strategies_per_code skip_errors st0
  = (if skip_errors then
       bindM (apply_strategies true post e acc2)
         (fun pairs => generate after strategies_per_code true pairs)
         (logged st3 (error_msg f e err))
     else (Raise (Exception (error_msg f e err)), st3))
  /\ exists context, error_msg f e err = (context ++ str_of_exn err)%string.
Proof.
  intros Hbefore Hshort Hsel Hpre Hcall.
  split; [| apply error_msg_ends_with_cause].
  unfold generate_sft_data.
  rewrite generate_from_app. unfold bindM at 1. rewrite Hbefore.
  simpl. apply Z.ltb_ge in Hshort. rewrite Hshort, Hsel.
  unfold bindM at 1.
  rewrite apply_strategies_app. unfold bindM at 1. rewrite Hpre.
  simpl. rewrite Hcall.
  destruct skip_errors.
  - unfold bindM, print. simpl. reflexivity.
  - reflexivity.
Qed.

End FailurePolicy.

Lemma strategy_failure_policy_witness :
  (exists msg st,
     SFT.generate_sft_data Samples.llm_fails_second ascii_lower
       Samples.int_mul_0_7 2000
       [Samples.short_entry; Samples.other_entry] 3 false Samples.start
     = (Raise (Exception msg), st)
     /\ SFT.calls st = 2%nat)
  /\ (exists pairs st,
        SFT.generate_sft_data Samples.llm_fails_second ascii_lower
          Samples.int_mul_0_7 2000
          [Samples.short_entry; Samples.other_entry] 3 true Samples.start
        = (Ok pairs, st)
        /\ len pairs = 5).
Proof.
  split.
  - destruct (strategy_failure_policy Samples.llm_fails_second ascii_lower
                Samples.int_mul_0_7 2000 false
                [] [Samples.other_entry] Samples.short_entry 3
                [SFT.mk_strategy "_generate_code_documentation"
                   (SFT._generate_code_documentation Samples.llm_fails_second)]
                [SFT.mk_strategy "_generate_function_implementation"
                   (SFT._generate_function_implementation
                      Samples.llm_fails_second ascii_lower)]
                (SFT.mk_strategy "_generate_code_completion"
                   (SFT._generate_code_completion Samples.llm_fails_second
                      Samples.int_mul_0_7))
                [] _ Samples.start Samples.start _ _ (Exception "rate limit")
                eq_refl ltac:(vm_compute; discriminate) eq_refl eq_refl eq_refl)
      as [Hrun _].
    do 2 eexists. split; [exact Hrun | reflexivity].
  - destruct (strategy_failure_policy Samples.llm_fails_second ascii_lower
                Samples.int_mul_0_7 2000 true
                [] [Samples.other_entry] Samples.short_entry 3
                [SFT.mk_strategy "_generate_code_documentation"
                   (SFT._generate_code_documentation Samples.llm_fails_second)]
                [SFT.mk_strategy "_generate_function_implementation"
                   (SFT._generate_function_implementation
                      Samples.llm_fails_second ascii_lower)]
                (SFT.mk_strategy "_generate_code_completion"
                   (SFT._generate_code_completion Samples.llm_fails_second
                      Samples.int_mul_0_7))
                [] _ Samples.start Samples.start _ _ (Exception "rate limit")
                eq_refl ltac:(vm_compute; discriminate) eq_refl eq_refl eq_refl)
      as [Hrun _].
    do 2 eexists. split.
    + etransitivity; [exact Hrun | vm_compute; reflexivity].
    + reflexivity.
Defined.

(** C10. With [--sample_size 0] the truncation is not applied: the whole
    input is kept, as when the option is left out, although the first 0
    records would be none; the run is that of the default. *)
Theorem sample_size_zero_uses_all
    (llm : nat -> list SFT.message -> result string)
    (lower : string -> string) (int_mul_0_7 : Z -> Z)
    (input_json output_json : string) (max_code_length strategies_per_code : Z)
    (loaded : list SFT.code_entry) (st : SFT.state) :
  SFT.sample (Some 0) loaded st = (Ok loaded, st)
  /\ SFT.sample (Some 0) loaded st = SFT.sample None loaded st
  /\ slice_to 0 loaded = []
  /\ SFT.main llm lower int_mul_0_7
       (SFT.mk_args input_json output_json max_code_length
          strategies_per_code (Some 0)) loaded st
     = SFT.main llm lower int_mul_0_7
         (SFT.mk_args input_json output_json max_code_length
            strategies_per_code None) loaded st.
Proof. repeat split. Qed.

(** A non-zero [--sample_size] does cut the input. *)
Example sample_size_one_cuts :
  fst (SFT.sample (Some 1) [Samples.short_entry; Samples.other_entry]
         Samples.start)
  = Ok [Samples.short_entry].
Proof. reflexivity. Qed.

(** ** The training driver *)

Section Driver.

Import Train.

Variable EOS_TOKEN : string.
Variable text_column : string.

(** Called with two positional arguments, the template finds no value for
    its first field, which is a named one. *)
Lemma format_positional_raises (file_path content : string) :
  format CPT_CODE_PROMPT [file_path; content] [] = Raise (KeyError "file_path").
Proof. reflexivity. Qed.

(** Called with the two values by keyword, it yields the text of the
    template with both put in. *)
Lemma format_keyword_text (file_path content : string) :
  bind (format CPT_CODE_PROMPT []
          [("file_path", file_path); ("content", content)])
    (fun text => Ok (text ++ EOS_TOKEN)%string)
  = Ok (expected_text EOS_TOKEN file_path content).
Proof.
  unfold expected_text. vm_compute.
  change (fix append (s1 s2 : string) {struct s1} : string :=
            match s1 with
            | EmptyString => s2
            | String c s1' => String c (append s1' s2)
            end) with String.append.
  rewrite string_app_assoc. cbv [String.append]. fold String.append.
  rewrite string_app_assoc. reflexivity.
Qed.

Lemma format_rows_raises (rows : list (string * string))
    (outputs : list string) :
  rows <> [] ->
  format_rows EOS_TOKEN rows outputs = Raise (KeyError "file_path").
Proof.
  destruct rows as [| [file_path content] rest]; intros Hne.
  - now contradiction Hne.
  - reflexivity.
Qed.

Lemma format_rows_kw_texts (rows : list (string * string)) :
  forall outputs,
    format_rows_kw EOS_TOKEN rows outputs
    = Ok (outputs
          ++ map (fun r => expected_text EOS_TOKEN (fst r) (snd r)) rows)%list.
Proof.
  induction rows as [| [file_path content] rest IH]; intros outputs.
  - simpl. now rewrite app_nil_r.
  - pose proof (format_keyword_text file_path content) as Hfmt.
    change (format_rows_kw EOS_TOKEN ((file_path, content) :: rest) outputs)
      with (bind (format CPT_CODE_PROMPT []
                    [("file_path", file_path); ("content", content)])
              (fun text =>
                 format_rows_kw EOS_TOKEN rest
                   (outputs ++ [(text ++ EOS_TOKEN)%string])%list)).
    destruct (format CPT_CODE_PROMPT []
                [("file_path", file_path); ("content", content)])
      as [text | e]; unfold bind in *; [| discriminate].
    inversion Hfmt as [Htext].
    rewrite IH, <- app_assoc, Htext. reflexivity.
Qed.

(** C2. On every batch of at least one record with the columns file_path
    and content, the formatting function raises KeyError('file_path'):
    it returns no text column. *)
Theorem formatting_prompts_func_raises (file_path content : string)
    (file_paths contents : list string) :
  formatting_prompts_func EOS_TOKEN text_column
    [("file_path", file_path :: file_paths); ("content", content :: contents)]
  = Raise (KeyError "file_path").
Proof. reflexivity. Qed.

(** With the values passed by keyword the same function yields, for every
    record, the text the spec describes. *)
Lemma formatting_prompts_func_kw_texts (file_paths contents : list string) :
  formatting_prompts_func_kw EOS_TOKEN text_column
    [("file_path", file_paths); ("content", contents)]
  = Ok (text_column,
        map (fun r => expected_text EOS_TOKEN (fst r) (snd r))
          (combine file_paths contents)).
Proof.
  unfold formatting_prompts_func_kw.
  change (column [("file_path", file_paths); ("content", contents)]
            "file_path") with (Ok file_paths).
  change (column [("file_path", file_paths); ("content", contents)]
            "content") with (Ok contents).
  unfold bind at 1 2. rewrite format_rows_kw_texts. reflexivity.
Qed.

Variable load_dataset : load_call -> result DatasetDict.

Lemma load_sources_last (data_sources : list string) :
  forall acc current datasets dataset,
    load_sources load_dataset data_sources acc current
    = Ok (datasets, dataset) ->
    match data_sources with
    | [] => dataset = current
    | _ =>
        exists dd,
          dataset = Some dd
          /\ load_dataset (load_call_of (last data_sources EmptyString)) = Ok dd
    end.
Proof.
  induction data_sources as [| source rest IH];
    intros acc current datasets dataset H.
  - simpl in H. now inversion H.
  - simpl in H.
    destruct (load_dataset (load_call_of source)) as [dd | e] eqn:Hload;
      simpl in H; [| discriminate].
    destruct (getitem dd "train") as [train | e]; simpl in H; [| discriminate].
    apply IH in H. destruct rest as [| next rest'].
    + exists dd. split; [exact H | exact Hload].
    + exact H.
Qed.

(** Whatever the mapped function, a trainer that is constructed receives
    what [load_dataset] returned for the last source: the dictionary of
    splits, as loaded. *)
Lemma main_with_passes_last_loaded
    (f : Dataset -> result (string * list string))
    (data_sources : list string) (call : trainer_call) :
  main_with f load_dataset data_sources text_column = Ok call ->
  exists dd,
    train_dataset call = ADatasetDict dd
    /\ load_dataset (load_call_of (last data_sources EmptyString)) = Ok dd.
Proof.
  unfold main_with. intros H.
  destruct (load_sources load_dataset data_sources [] None)
    as [[datasets dataset] | e] eqn:Hload; simpl in H; [| discriminate].
  destruct (concatenate_datasets datasets) as [combined | e] eqn:Hcat;
    simpl in H; [| discriminate].
  destruct (dataset_map f combined) as [mapped | e]; simpl in H;
    [| discriminate].
  destruct (first_row mapped); simpl in H; [| discriminate].
  apply load_sources_last in Hload.
  destruct data_sources as [| source rest].
  - subst dataset. discriminate.
  - destruct Hload as [dd [-> Hdd]]. inversion H; subst. simpl. eauto.
Qed.

Lemma column_in (d : Dataset) (c : string) (values : list string) :
  column d c = Ok values -> In (c, values) d.
Proof.
  induction d as [| [k v] rest IH]; simpl; intros H; [discriminate |].
  destruct (String.eqb k c) eqn:Hk.
  - apply String.eqb_eq in Hk. inversion H; subst. now left.
  - right. now apply IH.
Qed.

Lemma column_slice_rows (d : Dataset) (c : string) (i n : nat)
    (values : list string) :
  column (slice_rows d i n) c = Ok values ->
  exists all, column d c = Ok all /\ values = firstn n (skipn i all).
Proof.
  unfold slice_rows.
  induction d as [| [k v] rest IH]; simpl; intros H; [discriminate |].
  destruct (String.eqb k c).
  - inversion H; subst. eauto.
  - now apply IH.
Qed.

(** The first batch of a table with rows has rows in every column. *)
Lemma first_batch_column (d : Dataset) (c : string) (values : list string) :
  rectangular d ->
  num_rows d <> 0%nat ->
  column (slice_rows d 0 batch_size) c = Ok values ->
  values <> [].
Proof.
  intros Hrect Hrows Hcol.
  apply column_slice_rows in Hcol. destruct Hcol as [all [Hall ->]].
  apply column_in in Hall.
  unfold rectangular in Hrect. rewrite Forall_forall in Hrect.
  specialize (Hrect _ Hall). simpl in Hrect.
  destruct all as [| a rest]; [simpl in Hrect; congruence |].
  simpl. discriminate.
Qed.

(** Mapping the formatting function over a table with rows raises; a
    table without rows comes back as it is and has no first row. *)
Lemma mapped_dataset_has_no_first_row (d : Dataset) :
  rectangular d ->
  is_raise (bind (dataset_map (formatting_prompts_func EOS_TOKEN text_column) d)
              first_row) = true.
Proof.
  intros Hrect. unfold dataset_map.
  destruct (num_rows d =? 0)%nat eqn:Hrows.
  - simpl. unfold first_row. now rewrite Hrows.
  - apply Nat.eqb_neq in Hrows.
    assert (Hn : exists n', ((num_rows d + batch_size - 1) / batch_size)%nat
                            = S n').
    { destruct ((num_rows d + batch_size - 1) / batch_size)%nat eqn:Hq;
        [| eauto].
      exfalso. apply Nat.div_small_iff in Hq; unfold batch_size in *; lia. }
    destruct Hn as [n' ->].
    assert (Hf : exists e,
               formatting_prompts_func EOS_TOKEN text_column
                 (slice_rows d 0 batch_size) = Raise e).
    { unfold formatting_prompts_func.
      destruct (column (slice_rows d 0 batch_size) "file_path")
        as [file_paths | e] eqn:Hfp; [| simpl; eauto].
      destruct (column (slice_rows d 0 batch_size) "content")
        as [contents | e] eqn:Hc; [| simpl; eauto].
      apply (first_batch_column d _ _ Hrect Hrows) in Hfp.
      apply (first_batch_column d _ _ Hrect Hrows) in Hc.
      unfold bind at 1 2.
      rewrite format_rows_raises; [simpl; eauto |].
      destruct file_paths; [congruence |].
      destruct contents; [congruence |]. discriminate. }
    destruct Hf as [e Hf].
    change (map_batches ?f d 0 (S n'))
      with (bind (f (slice_rows d 0 batch_size)) (fun out =>
            bind (map_batches f d (0 + batch_size) n') (fun rest =>
              Ok (set_column (slice_rows d 0 batch_size) (fst out) (snd out)
                    :: rest)))).
    rewrite Hf. reflexivity.
Qed.

Lemma append_rows_rectangular (d1 d2 r : Dataset) (n : nat) :
  Forall (fun kv => List.length (snd kv) = n) d1 ->
  rectangular d2 ->
  append_rows d1 d2 = Ok r ->
  Forall (fun kv => List.length (snd kv) = (n + num_rows d2)%nat) r.
Proof.
  intros H1 H2. revert r.
  induction H1 as [| [k v] rest Hk Hrest IH]; intros r H; simpl in H.
  - inversion H. constructor.
  - destruct (column d2 k) as [v2 | e] eqn:Hcol; simpl in H; [| discriminate].
    destruct (append_rows rest d2) as [rest' | e]; simpl in H; [| discriminate].
    injection H as <-. constructor.
    + simpl in *. rewrite length_app, Hk.
      apply column_in in Hcol. unfold rectangular in H2.
      rewrite Forall_forall in H2. specialize (H2 _ Hcol).
      simpl in H2. now rewrite H2.
    + now apply IH.
Qed.

Lemma forall_length_rectangular (d : Dataset) (n : nat) :
  Forall (fun kv => List.length (snd kv) = n) d -> rectangular d.
Proof.
  intros H. unfold rectangular.
  destruct d as [| [k v] rest]; [constructor |].
  inversion H as [| ? ? Hk Hrest]; subst. simpl in *.
  constructor; [reflexivity | exact Hrest].
Qed.

Lemma concatenate_rectangular (dsets : list Dataset) (combined : Dataset) :
  Forall rectangular dsets ->
  concatenate_datasets dsets = Ok combined ->
  rectangular combined.
Proof.
  destruct dsets as [| d rest]; simpl; [discriminate |].
  intros Hall. inversion Hall as [| ? ? Hd Hrest]; subst. clear Hall.
  revert d Hd. induction Hrest as [| d2 rest Hd2 Hrest IH]; intros d Hd H.
  - simpl in H. injection H as <-. exact Hd.
  - simpl in H.
    destruct (negb (List.length d =? List.length d2)%nat); [discriminate |].
    destruct (append_rows d d2) as [acc |] eqn:Happ; simpl in H;
      [| discriminate].
    apply (IH acc); [| exact H].
    apply (forall_length_rectangular _ (num_rows d + num_rows d2)).
    now apply (append_rows_rectangular d d2).
Qed.

Lemma load_sources_rectangular (data_sources : list string) :
  (forall c dd train,
     load_dataset c = Ok dd -> getitem dd "train" = Ok train ->
     rectangular train) ->
  forall acc current datasets dataset,
    Forall rectangular acc ->
    load_sources load_dataset data_sources acc current
    = Ok (datasets, dataset) ->
    Forall rectangular datasets.
Proof.
  intros Hload.
  induction data_sources as [| source rest IH];
    intros acc current datasets dataset Hacc H; simpl in H.
  - now inversion H; subst.
  - destruct (load_dataset (load_call_of source)) as [dd | e] eqn:Hdd;
      simpl in H; [| discriminate].
    destruct (getitem dd "train") as [train | e] eqn:Htrain; simpl in H;
      [| discriminate].
    apply IH in H; [exact H |].
    apply Forall_app. split; [exact Hacc |].
    constructor; [| constructor]. exact (Hload _ dd train Hdd Htrain).
Qed.

(** As the driver stands, no run constructs the trainer: without sources
    the concatenation fails, with records the mapping raises, and without
    records the mapped dataset has no first row to print. *)
Lemma main_constructs_no_trainer (data_sources : list string) :
  (forall c dd train,
     load_dataset c = Ok dd -> getitem dd "train" = Ok train ->
     rectangular train) ->
  is_raise (main EOS_TOKEN load_dataset data_sources text_column) = true.
Proof.
  intros Hload. unfold main, main_with.
  destruct (load_sources load_dataset data_sources [] None)
    as [[datasets dataset] | e] eqn:Hsrc; simpl; [| reflexivity].
  apply (load_sources_rectangular _ Hload) in Hsrc; [| constructor].
  destruct (concatenate_datasets datasets) as [combined | e] eqn:Hcat; simpl;
    [| reflexivity].
  apply (concatenate_rectangular _ _ Hsrc) in Hcat.
  pose proof (mapped_dataset_has_no_first_row combined Hcat) as Hmap.
  destruct (dataset_map (formatting_prompts_func EOS_TOKEN text_column)
              combined) as [mapped | e]; simpl in *; [| reflexivity].
  destruct (first_row mapped); simpl in *; [discriminate | reflexivity].
Qed.

End Driver.

(** C1. On two JSON sources of one record each the driver raises
    KeyError('file_path') while mapping and constructs no trainer.  Had
    the mapped function passed its values by keyword, the trainer would
    be constructed with the dictionary loaded from the second source,
    whose one record is unmapped, and not with the combined dataset of
    two mapped records. *)
Theorem trainer_receives_last_raw_dataset :
  Train.main "<eos>" Samples.load_dataset Samples.two_sources "text"
  = Raise (KeyError "file_path")
  /\ exists call combined,
       Train.main_with (Train.formatting_prompts_func_kw "<eos>" "text")
         Samples.load_dataset Samples.two_sources "text" = Ok call
       /\ Train.train_dataset call
          = Train.ADatasetDict [("train", Samples.dataset_b)]
       /\ bind (Train.concatenate_datasets [Samples.dataset_a; Samples.dataset_b])
            (Train.dataset_map (Train.formatting_prompts_func_kw "<eos>" "text"))
          = Ok combined
       /\ Train.num_rows combined = 2%nat
       /\ Train.train_dataset call <> Train.ADataset combined.
Proof.
  split; [vm_compute; reflexivity |].
  do 2 eexists.
  split; [vm_compute; reflexivity |].
  split; [reflexivity |].
  split; [vm_compute; reflexivity |].
  split; [reflexivity | discriminate].
Qed.

(** * Further properties of the scripts *)

(** ** Validation and the collecting loop *)

Lemma is_allowed_iff (lang : string) :
  Filtering.is_allowed lang = true
  <-> exists extensions, In (lang, extensions) Filtering.ALLOWED_LANGUAGES.
Proof.
  unfold Filtering.is_allowed. rewrite str_in_iff, in_map_iff. split.
  - intros [[l exts] [Heq Hin]]. simpl in Heq. subst. now exists exts.
  - intros [exts Hin]. now exists (lang, exts).
Qed.

Lemma filter_nil_iff {A} (f : A -> bool) (l : list A) :
  filter f l = [] <-> Forall (fun x => f x = false) l.
Proof.
  induction l as [| a l IH]; simpl.
  - split; [constructor | reflexivity].
  - destruct (f a) eqn:Hfa; split; intros H.
    + discriminate.
    + inversion H; subst. congruence.
    + constructor; [assumption | now apply IH].
    + inversion H; subst. now apply IH.
Qed.

Lemma validate_languages_cases (languages : list string) :
  (Filtering.validate_languages languages = Ok tt
   <-> Forall (fun lang =>
                 exists extensions,
                   In (lang, extensions) Filtering.ALLOWED_LANGUAGES)
         languages)
  /\ (Filtering.validate_languages languages = Ok tt
      \/ exists msg,
           Filtering.validate_languages languages = Raise (AssertionError msg)).
Proof.
  unfold Filtering.validate_languages.
  set (invalid := filter (fun lang => negb (Filtering.is_allowed lang))
                    languages).
  assert (Hnil : invalid = []
                 <-> Forall (fun lang =>
                               exists extensions,
                                 In (lang, extensions)
                                    Filtering.ALLOWED_LANGUAGES) languages).
  { subst invalid. rewrite filter_nil_iff. split; intros H;
      (eapply Forall_impl; [| exact H]); simpl; intros l Hl.
    - apply is_allowed_iff. now apply negb_false_iff in Hl.
    - apply negb_false_iff. now apply is_allowed_iff. }
  destruct invalid as [| bad rest] eqn:Hinv.
  - simpl. split; [| now left]. split; intros _; [now apply Hnil | reflexivity].
  - assert (Hlen : (len (bad :: rest) =? 0) = false)
      by (apply Z.eqb_neq; unfold len; simpl; lia).
    rewrite Hlen. split; [| right; eauto].
    split; intros H; [discriminate |].
    apply Hnil in H. discriminate.
Qed.

(** The validation passes exactly when every requested name is a key of
    the table; otherwise it raises an AssertionError. *)
Theorem validate_languages_ok_iff (languages : list string) :
  (Filtering.validate_languages languages = Ok tt
   <-> Forall (fun lang =>
                 exists extensions,
                   In (lang, extensions) Filtering.ALLOWED_LANGUAGES)
         languages)
  /\ (Filtering.validate_languages languages = Ok tt
      \/ exists msg,
           Filtering.validate_languages languages = Raise (AssertionError msg)).
Proof. exact (validate_languages_cases languages). Qed.

(** A request that names a language outside the table is rejected with
    the same AssertionError whatever the stream holds and whatever the
    target: the stream is not looked at. *)
Theorem main_rejects_unknown_language (lower : string -> string)
    (languages : list string) (bad : string) :
  In bad languages ->
  Filtering.is_allowed bad = false ->
  exists msg,
    forall sample_size stream,
      Filtering.main lower languages sample_size stream
      = Raise (AssertionError msg).
Proof.
  intros Hin Hbad.
  destruct (validate_languages_cases languages) as [Hiff [Hok | [msg Hmsg]]].
  - exfalso. apply Hiff in Hok. rewrite Forall_forall in Hok.
    apply Hok in Hin. apply is_allowed_iff in Hin. congruence.
  - exists msg. intros sample_size stream.
    unfold Filtering.main. now rewrite Hmsg.
Qed.

Lemma main_rejects_unknown_language_witness :
  exists msg,
    Filtering.main ascii_lower ["python"; "cobol"] 5 Samples.five_records
    = Raise (AssertionError msg).
Proof.
  destruct (main_rejects_unknown_language ascii_lower ["python"; "cobol"]
              "cobol" (or_intror (or_introl eq_refl)) eq_refl) as [msg H].
  exists msg. apply H.
Defined.

(** After a validation that passed, the table has an entry for every
    requested language: building the target extensions raises no
    KeyError. *)
Theorem target_extensions_after_validation (languages : list string) :
  Filtering.validate_languages languages = Ok tt ->
  exists target, Filtering.target_extensions languages [] = Ok target.
Proof.
  intros Hok. apply validate_languages_cases in Hok.
  assert (Hget : forall lang,
             (exists extensions,
                In (lang, extensions) Filtering.ALLOWED_LANGUAGES) ->
             exists extensions,
               Filtering.allowed_get Filtering.ALLOWED_LANGUAGES lang
               = Ok extensions).
  { intros lang [exts Hin]. revert Hin.
    generalize Filtering.ALLOWED_LANGUAGES as table.
    induction table as [| [l e] rest IH]; simpl; intros Hin; [destruct Hin |].
    destruct (String.eqb l lang) eqn:Heq; [eauto |].
    destruct Hin as [Hhd | Htl]; [| now apply IH].
    inversion Hhd; subst. now rewrite String.eqb_refl in Heq. }
  generalize (@nil string) as acc.
  induction Hok as [| lang rest Hlang _ IH]; intros acc;
    cbn [Filtering.target_extensions].
  - eauto.
  - destruct (Hget lang Hlang) as [exts ->]. cbn [bind]. apply IH.
Qed.

Lemma target_extensions_after_validation_witness :
  exists target, Filtering.target_extensions ["c"; "cpp"] [] = Ok target.
Proof.
  apply (target_extensions_after_validation ["c"; "cpp"]). reflexivity.
Defined.

Section Collecting.

Variable lower : string -> string.
Variable languages : list string.

Lemma collect_prefix_from (sample_size : Z) (stream : list Filtering.example) :
  forall collected total,
    len collected < sample_size ->
    fst (Filtering.collect lower languages sample_size stream collected total)
    = (collected
       ++ firstn (Z.to_nat (sample_size - len collected))
            (Filtering.matching lower languages stream))%list.
Proof.
  induction stream as [| ex rest IH]; intros collected total Hlt; simpl.
  - rewrite firstn_nil. now rewrite app_nil_r.
  - destruct (Filtering.ex_file_path ex) as [fp |]; [| now apply IH].
    destruct (Filtering.detected_in _ languages).
    + destruct (sample_size <=? len (collected ++ [Filtering.make_record ex fp]))
        eqn:Hstop.
      * apply Z.leb_le in Hstop. rewrite len_app in Hstop.
        unfold len in Hstop at 2. simpl in Hstop.
        replace (Z.to_nat (sample_size - len collected)) with 1%nat by lia.
        reflexivity.
      * apply Z.leb_gt in Hstop. rewrite (IH _ _ Hstop).
        rewrite len_app in *. unfold len in Hstop at 2. simpl in Hstop.
        unfold len at 2. simpl.
        replace (Z.to_nat (sample_size - len collected))
          with (S (Z.to_nat (sample_size - (len collected + 1)))) by lia.
        simpl. now rewrite <- app_assoc.
    + destruct (sample_size <=? len collected) eqn:Hstop.
      * apply Z.leb_le in Hstop. lia.
      * now apply IH.
Qed.

(** For a target of at least one record, what the collector returns is
    the first [sample_size] matching records of the stream, in the order
    of the stream; all of them when there are fewer. *)
Theorem collector_returns_first_matching (sample_size : Z)
    (stream : list Filtering.example) :
  1 <= sample_size ->
  Filtering.validate_languages languages = Ok tt ->
  Filtering.main lower languages sample_size stream
  = Ok (firstn (Z.to_nat sample_size)
          (Filtering.matching lower languages stream)).
Proof.
  intros Hpos Hok. unfold Filtering.main. rewrite Hok. simpl.
  rewrite collect_prefix_from by (unfold len; simpl; lia).
  unfold len. simpl. now rewrite Z.sub_0_r.
Qed.

Lemma collect_checked_from (sample_size : Z) (stream : list Filtering.example) :
  forall collected total,
    let r := Filtering.collect lower languages sample_size stream
               collected total in
    total <= snd r <= total + len stream
    /\ (len (fst r) < sample_size -> snd r = total + len stream).
Proof.
  induction stream as [| ex rest IH]; intros collected total; simpl.
  - unfold len. simpl. lia.
  - assert (Hlen : len (ex :: rest) = len rest + 1)
      by (unfold len; simpl List.length; lia).
    rewrite Hlen.
    destruct (Filtering.ex_file_path ex) as [fp |].
    + set (collected' :=
             if Filtering.detected_in
                  (Filtering.get_language_from_filepath lower fp) languages
             then (collected ++ [Filtering.make_record ex fp])%list
             else collected).
      destruct (sample_size <=? len collected') eqn:Hstop.
      * apply Z.leb_le in Hstop. simpl. pose proof (len_nonneg rest). lia.
      * specialize (IH collected' (total + 1)). simpl in IH. lia.
    + specialize (IH collected (total + 1)). simpl in IH. lia.
Qed.

(** The loop examines at most the whole stream, and it stops early only
    because the target was reached: a result below the target means that
    every record of the stream was examined. *)
Theorem collector_examines_whole_stream_below_target (sample_size : Z)
    (stream : list Filtering.example) :
  let r := Filtering.collect lower languages sample_size stream [] 0 in
  0 <= snd r <= len stream
  /\ (len (fst r) < sample_size -> snd r = len stream).
Proof.
  pose proof (collect_checked_from sample_size stream [] 0) as H.
  simpl in *. exact H.
Qed.


(** Whatever the classifier returns is a key of the table, so a name it
    returns passes the validation. *)
Theorem classifier_returns_table_key (file_path language : string) :
  Filtering.get_language_from_filepath lower file_path = Some language ->
  Filtering.is_allowed language = true.
Proof.
  intros H. apply find_language_sound in H.
  destruct H as [exts [Hin _]]. apply is_allowed_iff. now exists exts.
Qed.

End Collecting.

Lemma main_bound_for_positive_target_witness :
  exists collected,
    Filtering.main ascii_lower ["python"] 1 Samples.five_records = Ok collected
    /\ len collected <= 1.
Proof.
  eexists. split; [reflexivity |].
  apply (main_bound_for_positive_target ascii_lower ["python"] 1
           Samples.five_records); [lia | reflexivity].
Defined.

Lemma collector_returns_first_matching_witness :
  Filtering.main ascii_lower ["python"] 2 Samples.five_records
  = Ok (firstn 2 (Filtering.matching ascii_lower ["python"]
                    Samples.five_records)).
Proof.
  apply (collector_returns_first_matching ascii_lower ["python"] 2
           Samples.five_records); [lia | reflexivity].
Defined.

Lemma collector_examines_whole_stream_below_target_witness :
  snd (Filtering.collect ascii_lower ["python"] 3 Samples.five_records [] 0)
  = 5.
Proof.
  apply (collector_examines_whole_stream_below_target ascii_lower ["python"] 3
           Samples.five_records).
  vm_compute. reflexivity.
Defined.


Lemma classifier_returns_table_key_witness :
  Filtering.is_allowed "kotlin" = true.
Proof.
  apply (classifier_returns_table_key ascii_lower "app/Build.KTS" "kotlin").
  reflexivity.
Defined.

(** ** Paths without an extension *)

Lemma rfind_from_absent (c : ascii) (s : string) :
  ~ In c (list_ascii_of_string s) ->
  forall i last, rfind_from c s i last = last.
Proof.
  induction s as [| a s IH]; simpl; intros Hno i last; [reflexivity |].
  rewrite IH by (intros H; apply Hno; now right).
  destruct (Ascii.eqb a c) eqn:Heq; [| reflexivity].
  apply Ascii.eqb_eq in Heq. exfalso. apply Hno. now left.
Qed.

Lemma rfind_from_lower_bound (c : ascii) (s : string) :
  forall i last, -1 <= last -> 0 <= i -> -1 <= rfind_from c s i last.
Proof.
  induction s as [| a s IH]; simpl; intros i last Hlast Hi; [exact Hlast |].
  apply IH; [destruct (Ascii.eqb a c) |]; lia.
Qed.

(** A path that holds no dot (README, Makefile, src/LICENSE) has no
    extension and is classified as no language, so the collector never
    takes it. *)
Theorem classifier_none_without_dot (lower : string -> string)
    (file_path : string) :
  ~ In "."%char (list_ascii_of_string (lower file_path)) ->
  Filtering.get_language_from_filepath lower file_path = None.
Proof.
  intros Hno.
  unfold Filtering.get_language_from_filepath, Filtering.extension, splitext.
  unfold rfind at 2. rewrite (rfind_from_absent _ _ Hno).
  assert (Hsep : (rfind "/"%char (lower file_path) <? -1) = false).
  { apply Z.ltb_ge. apply rfind_from_lower_bound; lia. }
  rewrite Hsep. reflexivity.
Qed.

Lemma classifier_none_without_dot_witness :
  Filtering.get_language_from_filepath ascii_lower "src/Makefile" = None.
Proof.
  apply (classifier_none_without_dot ascii_lower "src/Makefile").
  simpl. intuition discriminate.
Defined.

(** ** Dicts of counters *)

Section Tally.

Context {K : Type}.
Variable eqb : K -> K -> bool.
Hypothesis eqb_eq : forall x y, eqb x y = true <-> x = y.

Lemma eqb_refl_key (x : K) : eqb x x = true.
Proof. now apply eqb_eq. Qed.

Lemma counter_get_set_same (d : list (K * Z)) (k : K) (v : Z) :
  counter_get eqb (counter_set eqb d k v) k = v.
Proof.
  induction d as [| [k' v'] rest IH]; simpl.
  - now rewrite eqb_refl_key.
  - destruct (eqb k' k) eqn:Heq; simpl; rewrite Heq; [reflexivity | exact IH].
Qed.

Lemma counter_get_set_other (d : list (K * Z)) (k k0 : K) (v : Z) :
  eqb k k0 = false ->
  counter_get eqb (counter_set eqb d k v) k0 = counter_get eqb d k0.
Proof.
  intros Hne. induction d as [| [k' v'] rest IH]; simpl.
  - now rewrite Hne.
  - destruct (eqb k' k) eqn:Heq; simpl.
    + apply eqb_eq in Heq. subst k'. now rewrite Hne.
    + destruct (eqb k' k0); [reflexivity | exact IH].
Qed.

Lemma counter_total_set (d : list (K * Z)) (k : K) (v : Z) :
  counter_total (counter_set eqb d k v)
  = counter_total d - counter_get eqb d k + v.
Proof.
  unfold counter_total.
  induction d as [| [k' v'] rest IH]; simpl; [lia |].
  destruct (eqb k' k); simpl; lia.
Qed.

Lemma counter_keys_set (d : list (K * Z)) (k : K) (v : Z) :
  map fst (counter_set eqb d k v)
  = if existsb (fun k' => eqb k' k) (map fst d) then map fst d
    else (map fst d ++ [k])%list.
Proof.
  induction d as [| [k' v'] rest IH]; simpl; [reflexivity |].
  destruct (eqb k' k); simpl; [reflexivity |].
  rewrite IH. now destruct (existsb _ (map fst rest)).
Qed.

Lemma tally_from_get (keys : list K) (k0 : K) :
  forall d,
    counter_get eqb (tally_from eqb keys d) k0
    = counter_get eqb d k0 + len (filter (fun k => eqb k k0) keys).
Proof.
  induction keys as [| k rest IH]; intros d; simpl.
  - unfold len. simpl. lia.
  - rewrite IH. destruct (eqb k k0) eqn:Heq.
    + apply eqb_eq in Heq. subst k0. rewrite counter_get_set_same.
      unfold len. simpl List.length. lia.
    + rewrite counter_get_set_other by exact Heq. reflexivity.
Qed.

Lemma tally_from_total (keys : list K) :
  forall d,
    counter_total (tally_from eqb keys d) = counter_total d + len keys.
Proof.
  induction keys as [| k rest IH]; intros d; simpl.
  - unfold len. simpl. lia.
  - rewrite IH, counter_total_set. unfold len. simpl List.length. lia.
Qed.

Lemma tally_from_keys (keys : list K) :
  forall d,
    NoDup (map fst d) ->
    NoDup (map fst (tally_from eqb keys d))
    /\ (forall k0, In k0 (map fst (tally_from eqb keys d))
                   <-> In k0 (map fst d) \/ In k0 keys).
Proof.
  induction keys as [| k rest IH]; intros d Hnd; simpl.
  - split; [exact Hnd | intros k0; tauto].
  - set (d' := counter_set eqb d k (counter_get eqb d k + 1)).
    assert (Hkeys : map fst d'
                    = if existsb (fun k' => eqb k' k) (map fst d)
                      then map fst d else (map fst d ++ [k])%list)
      by apply counter_keys_set.
    assert (Hin : existsb (fun k' => eqb k' k) (map fst d) = true
                  <-> In k (map fst d)).
    { rewrite existsb_exists. split.
      - intros [x [Hx Hxk]]. apply eqb_eq in Hxk. now subst.
      - intros H. exists k. split; [exact H | apply eqb_refl_key]. }
    assert (Hnd' : NoDup (map fst d')).
    { rewrite Hkeys.
      destruct (existsb (fun k' => eqb k' k) (map fst d)) eqn:Hex;
        [exact Hnd |].
      apply NoDup_app; [exact Hnd | constructor; [intros [] | constructor] |].
      intros x Hx [<- | []]. apply Hin in Hx. congruence. }
    destruct (IH d' Hnd') as [Hres Hmem]. split; [exact Hres |].
    intros k0. rewrite Hmem, Hkeys.
    destruct (existsb (fun k' => eqb k' k) (map fst d)) eqn:Hex.
    + assert (Hk : In k (map fst d)) by (now apply Hin).
      split; [tauto |].
      intros [H | [<- | H]]; tauto.
    + rewrite in_app_iff. simpl. tauto.
Qed.

End Tally.

Lemma option_string_eqb_eq (a b : option string) :
  option_string_eqb a b = true <-> a = b.
Proof.
  destruct a as [x |], b as [y |]; simpl; split; intros H;
    try discriminate; try reflexivity.
  - apply String.eqb_eq in H. now subst.
  - inversion H. apply String.eqb_refl.
Qed.

(** The per-language statistics count each collected record once: the
    counter of a language is the number of collected records classified
    as it, the counters add up to the number of collected records, and no
    language is listed twice. *)
Theorem language_counts_account_for_all (lower : string -> string)
    (collected_data : list Filtering.code_record) :
  counter_total (Filtering.language_counts lower collected_data)
  = len collected_data
  /\ (forall lang,
        counter_get option_string_eqb
          (Filtering.language_counts lower collected_data) lang
        = len (filter
                 (fun data =>
                    option_string_eqb
                      (Filtering.get_language_from_filepath lower
                         (Filtering.file_path data)) lang)
                 collected_data))
  /\ NoDup (map fst (Filtering.language_counts lower collected_data)).
Proof.
  unfold Filtering.language_counts, tally.
  split; [| split].
  - rewrite tally_from_total. unfold counter_total, len. simpl.
    now rewrite length_map.
  - intros lang.
    rewrite (tally_from_get _ option_string_eqb_eq). simpl.
    unfold len. f_equal.
    induction collected_data as [| d rest IH]; simpl; [reflexivity |].
    destruct (option_string_eqb _ lang); simpl; now rewrite IH.
  - apply (tally_from_keys _ option_string_eqb_eq). constructor.
Qed.

(** The strategy statistics of the generator count each pair once. *)
Theorem strategy_counts_account_for_all (sft_dataset : list SFT.sft_entry) :
  counter_total (SFT.strategy_counts sft_dataset) = len sft_dataset
  /\ (forall tag,
        counter_get String.eqb (SFT.strategy_counts sft_dataset) tag
        = len (filter
                 (fun entry => String.eqb (SFT.strategy (SFT.meta entry)) tag)
                 sft_dataset))
  /\ NoDup (map fst (SFT.strategy_counts sft_dataset)).
Proof.
  unfold SFT.strategy_counts, tally.
  split; [| split].
  - rewrite tally_from_total. unfold counter_total, len. simpl.
    now rewrite length_map.
  - intros tag.
    rewrite (tally_from_get _ String.eqb_eq). simpl.
    unfold len. f_equal.
    induction sft_dataset as [| d rest IH]; simpl; [reflexivity |].
    destruct (String.eqb _ tag); simpl; now rewrite IH.
  - apply (tally_from_keys _ String.eqb_eq). constructor.
Qed.

(** ** More on the harvester *)

Section Harvested.

Import Harvester.

Variable encode : string -> list Z.
Variable repo : string.

(** How a harvested record relates to the file it was made from. *)
Local Notation "'made_from'" :=
  (fun (e : data_entry) (p : string * node) =>
     exists x d,
       snd p = File x d
       /\ file_path e = fst p
       /\ repo_id e = repo
       /\ read_code d = Ok (content e)
       /\ size e = getsize d
       /\ token_size e = len (encode (content e))).

Lemma harvest_records_from (paths : list (string * node)) :
  forall dataset check dataset' check',
    harvest encode repo paths dataset check = Ok (dataset', check') ->
    exists added,
      dataset' = (dataset ++ added)%list
      /\ Forall2 made_from added (regular_files paths).
Proof.
  induction paths as [| [rel n] rest IH]; intros dataset check dataset' check' H.
  - simpl in H. injection H as <- <-. exists []. rewrite app_nil_r.
    split; [reflexivity | constructor].
  - destruct n as [x d | x sub]; simpl in H.
    + destruct (read_code d) as [code | e] eqn:Hread; simpl in H;
        [| discriminate].
      apply IH in H. destruct H as [added [-> Hall]].
      eexists. rewrite <- app_assoc. split; [reflexivity |].
      unfold regular_files. simpl. constructor; [| exact Hall].
      exists x, d. simpl. auto 10.
    + apply IH in H. unfold regular_files. simpl. exact H.
Qed.

(** The written list follows the glob: record by record, in its order,
    each file that is not a directory gives one record with the relative
    path of the file, the repository identifier of the command line, the
    text that was read, the size of the file and the token count of that
    text. *)
Theorem harvested_records_follow_glob (output_path p : string)
    (root : list node) (ds : list data_entry) :
  In (JsonDump p ds) (fst (main encode repo output_path root)) ->
  Forall2 made_from ds (regular_files (glob_recursive root)).
Proof.
  intros Hin. apply main_dump_inv in Hin. destruct Hin as [check H].
  apply harvest_records_from in H. destruct H as [added [-> Hall]].
  exact Hall.
Qed.

Lemma harvest_unreadable (paths : list (string * node)) :
  (exists rel x d, In (rel, File x d) paths /\ readable d = false) ->
  forall dataset check,
    harvest encode repo paths dataset check
    = Raise (UnicodeDecodeError "cp949").
Proof.
  induction paths as [| [rel n] rest IH];
    intros [rel0 [x0 [d0 [Hin Hbad]]]] dataset check.
  - destruct Hin.
  - destruct n as [x d | x sub]; simpl.
    + destruct (readable d) eqn:Hd.
      * assert (Hcode : exists code, read_code d = Ok code).
        { unfold readable in Hd. unfold read_code.
          destruct (read_default d); [eauto |].
          destruct (read_cp949 d); [eauto | discriminate]. }
        destruct Hcode as [code ->]. simpl. apply IH.
        destruct Hin as [Heq | Hin]; [| eauto 6].
        inversion Heq; subst. congruence.
      * unfold readable in Hd. unfold read_code.
        destruct (read_default d); [discriminate |].
        destruct (read_cp949 d); [discriminate | reflexivity].
    + apply IH. destruct Hin as [Heq | Hin]; [discriminate | eauto 6].
Qed.

(** One matched file that neither encoding can read costs the whole run:
    nothing is written and the decode error is raised; and this is the
    only way for the run to end before the dump. *)
Theorem unreadable_file_means_no_output (output_path : string)
    (root : list node) :
  (exists rel x d,
     In (rel, File x d) (glob_recursive root) /\ readable d = false)
  <-> main encode repo output_path root
      = ([], Raise (UnicodeDecodeError "cp949")).
Proof.
  split.
  - intros Hbad. unfold main. now rewrite (harvest_unreadable _ Hbad).
  - intros Hmain.
    assert (Hdec : (forall rel x d, In (rel, File x d) (glob_recursive root) ->
                                    readable d = true)
                   \/ exists rel x d,
                        In (rel, File x d) (glob_recursive root)
                        /\ readable d = false).
    { generalize (glob_recursive root) as paths.
      induction paths as [| [rel n] rest [IH | IH]].
      - left. intros ? ? ? [].
      - destruct n as [x d | x sub].
        + destruct (readable d) eqn:Hd.
          * left. intros rel' x' d' [Heq | Hin]; [| eauto].
            now inversion Heq; subst.
          * right. exists rel, x, d. split; [now left | exact Hd].
        + left. intros rel' x' d' [Heq | Hin]; [discriminate | eauto].
      - right. destruct IH as [rel' [x' [d' [Hin Hd]]]].
        exists rel', x', d'. split; [now right | exact Hd]. }
    destruct Hdec as [Hall | Hbad]; [| exact Hbad].
    destruct (harvest_readable encode repo _ Hall [] []) as [[ds chk] Hok].
    unfold main in Hmain. rewrite Hok in Hmain.
    destruct (statistics chk); discriminate.
Qed.

Lemma count_visible_le (n : node) :
  (count_visible_files n <= count_files n)%nat.
Proof.
  induction n as [x d | x sub IH] using node_forall_ind; simpl.
  - destruct (ishidden x); lia.
  - destruct (ishidden x); [lia |].
    induction IH as [| c rest Hc _ IHrest]; simpl; lia.
Qed.

Lemma count_visible_all (n : node) :
  no_hidden n = true -> count_visible_files n = count_files n.
Proof.
  induction n as [x d | x sub IH] using node_forall_ind; simpl; intros H.
  - now destruct (ishidden x).
  - destruct (ishidden x); [discriminate |]. simpl in H.
    induction IH as [| c rest Hc _ IHrest]; simpl; [reflexivity |].
    simpl in H. apply andb_true_iff in H. destruct H as [H1 H2].
    rewrite Hc, IHrest by assumption. reflexivity.
Qed.

(** The written list never holds more records than there are files under
    the root. *)
Theorem harvester_never_exceeds_files (output_path p : string)
    (root : list node) (ds : list data_entry) :
  In (JsonDump p ds) (fst (main encode repo output_path root)) ->
  (List.length ds <= list_sum (map count_files root))%nat.
Proof.
  intros Hin. apply main_dump_inv in Hin. destruct Hin as [check H].
  apply harvest_ok in H. destruct H as [Hlen _].
  rewrite glob_recursive_files in Hlen. simpl in Hlen. rewrite Hlen.
  clear. induction root as [| c rest IH]; simpl; [lia |].
  pose proof (count_visible_le c). lia.
Qed.

(** On a tree without any dot-name, all of whose files can be read, the
    list is written and has one record for every file under the root. *)
Theorem harvester_complete_without_hidden (output_path : string)
    (root : list node) :
  forallb no_hidden root = true ->
  forallb all_readable root = true ->
  exists ds,
    In (JsonDump output_path ds) (fst (main encode repo output_path root))
    /\ List.length ds = list_sum (map count_files root).
Proof.
  intros Hvis Hread.
  destruct (harvest_readable encode repo (glob_recursive root)
              (glob_recursive_readable root Hread) [] [])
    as [[dataset check] H].
  exists dataset. split.
  - unfold main. rewrite H. destruct (statistics check); simpl; now left.
  - apply harvest_ok in H. destruct H as [Hlen _].
    rewrite glob_recursive_files in Hlen. simpl in Hlen. rewrite Hlen.
    clear - Hvis. induction root as [| c rest IH]; simpl; [reflexivity |].
    simpl in Hvis. apply andb_true_iff in Hvis. destruct Hvis as [H1 H2].
    rewrite (count_visible_all c H1), (IH H2). reflexivity.
Qed.

End Harvested.

Lemma harvested_records_follow_glob_witness :
  exists ds,
    In (Harvester.JsonDump "out.json" ds)
       (fst (Harvester.main Samples.encode "autosar" "out.json"
               Samples.small_tree))
    /\ List.length ds
       = List.length
           (Harvester.regular_files
              (Harvester.glob_recursive Samples.small_tree)).
Proof.
  eexists. split; [left; reflexivity |].
  apply (Forall2_length
           (harvested_records_follow_glob Samples.encode "autosar"
              "out.json" "out.json" Samples.small_tree _
              (or_introl eq_refl))).
Defined.

Lemma harvester_never_exceeds_files_witness :
  (2 <= list_sum (map Harvester.count_files Samples.small_tree))%nat.
Proof.
  apply (harvester_never_exceeds_files Samples.encode "autosar" "out.json"
           "out.json" Samples.small_tree _ (or_introl eq_refl)).
Defined.

Lemma harvester_complete_without_hidden_witness :
  exists ds,
    In (Harvester.JsonDump "out.json" ds)
       (fst (Harvester.main Samples.encode "autosar" "out.json"
               Samples.small_tree))
    /\ List.length ds = 2%nat.
Proof.
  apply (harvester_complete_without_hidden Samples.encode "autosar" "out.json"
           Samples.small_tree); reflexivity.
Defined.

(** ** More on the statistics *)

Section Extremes.

Import Harvester.

Lemma max_from_first (l : list (Z * string)) :
  forall best,
    (max_from best l = best /\ Forall (fun x => fst x <= fst best) l)
    \/ exists pre post,
         l = (pre ++ max_from best l :: post)%list
         /\ fst best < fst (max_from best l)
         /\ Forall (fun x => fst x < fst (max_from best l)) pre.
Proof.
  induction l as [| x rest IH]; intros best; simpl.
  - left. split; [reflexivity | constructor].
  - destruct (fst best <? fst x) eqn:Hcmp.
    + apply Z.ltb_lt in Hcmp.
      destruct (IH x) as [[Heq Hall] | [pre [post [Hl [Hlt Hpre]]]]].
      * right. exists [], rest. rewrite Heq. simpl.
        split; [reflexivity | split; [exact Hcmp | constructor]].
      * right. exists (x :: pre), post. simpl.
        split; [now rewrite <- Hl | split; [lia |]].
        constructor; [exact Hlt | exact Hpre].
    + apply Z.ltb_ge in Hcmp.
      destruct (IH best) as [[Heq Hall] | [pre [post [Hl [Hlt Hpre]]]]].
      * left. split; [exact Heq | constructor; assumption].
      * right. exists (x :: pre), post. simpl.
        split; [now rewrite <- Hl | split; [exact Hlt |]].
        constructor; [lia | exact Hpre].
Qed.

Lemma min_from_first (l : list (Z * string)) :
  forall best,
    (min_from best l = best /\ Forall (fun x => fst best <= fst x) l)
    \/ exists pre post,
         l = (pre ++ min_from best l :: post)%list
         /\ fst (min_from best l) < fst best
         /\ Forall (fun x => fst (min_from best l) < fst x) pre.
Proof.
  induction l as [| x rest IH]; intros best; simpl.
  - left. split; [reflexivity | constructor].
  - destruct (fst x <? fst best) eqn:Hcmp.
    + apply Z.ltb_lt in Hcmp.
      destruct (IH x) as [[Heq Hall] | [pre [post [Hl [Hlt Hpre]]]]].
      * right. exists [], rest. rewrite Heq. simpl.
        split; [reflexivity | split; [exact Hcmp | constructor]].
      * right. exists (x :: pre), post. simpl.
        split; [now rewrite <- Hl | split; [lia |]].
        constructor; [exact Hlt | exact Hpre].
    + apply Z.ltb_ge in Hcmp.
      destruct (IH best) as [[Heq Hall] | [pre [post [Hl [Hlt Hpre]]]]].
      * left. split; [exact Heq | constructor; assumption].
      * right. exists (x :: pre), post. simpl.
        split; [now rewrite <- Hl | split; [exact Hlt |]].
        constructor; [lia | exact Hpre].
Qed.

(** Among files with the same extreme token count the statistics name the
    one harvested first: every entry before the reported maximum is
    strictly smaller, every entry before the reported minimum strictly
    greater. *)
Theorem statistics_report_first_extreme (check : list (Z * string))
    (s : stats) :
  statistics check = Ok s ->
  (exists pre post,
     check = (pre ++ max_token_entry s :: post)%list
     /\ Forall (fun x => fst x < fst (max_token_entry s)) pre)
  /\ (exists pre post,
        check = (pre ++ min_token_entry s :: post)%list
        /\ Forall (fun x => fst (min_token_entry s) < fst x) pre).
Proof.
  intros H. destruct check as [| x rest]; [discriminate |].
  unfold statistics in H. simpl py_max in H. simpl py_min in H.
  unfold bind at 1 2 in H.
  destruct (true_div _ _) as [q |]; simpl in H; [| discriminate].
  injection H as <-. simpl. split.
  - destruct (max_from_first rest x) as [[Heq _] | [pre [post [Hl [Hlt Hpre]]]]].
    + exists [], rest. rewrite Heq. split; [reflexivity | constructor].
    + exists (x :: pre), post. simpl. split; [now rewrite <- Hl |].
      constructor; [exact Hlt | exact Hpre].
  - destruct (min_from_first rest x) as [[Heq _] | [pre [post [Hl [Hlt Hpre]]]]].
    + exists [], rest. rewrite Heq. split; [reflexivity | constructor].
    + exists (x :: pre), post. simpl. split; [now rewrite <- Hl |].
      constructor; [exact Hlt | exact Hpre].
Qed.

Lemma length_map_len {A B} (f : A -> B) (l : list A) :
  len (map f l) = len l.
Proof. unfold len. now rewrite length_map. Qed.

Lemma sum_bounds (l : list Z) (lo hi : Z) :
  Forall (fun x => lo <= x <= hi) l ->
  lo * len l <= fold_right Z.add 0 l <= hi * len l.
Proof.
  induction 1 as [| x rest Hx _ IH]; simpl.
  - unfold len. simpl. lia.
  - replace (len (x :: rest)) with (len rest + 1)
      by (unfold len; simpl List.length; lia).
    lia.
Qed.

(** The reported average lies between the reported minimum and the
    reported maximum. *)
Theorem statistics_average_between (check : list (Z * string)) (s : stats) :
  statistics check = Ok s ->
  (inject_Z (fst (min_token_entry s)) <= avg_token_size s)%Q
  /\ (avg_token_size s <= inject_Z (fst (max_token_entry s)))%Q.
Proof.
  intros H.
  destruct (statistics_spec check) as [_ Hok].
  destruct Hok as [s' [Hs [_ [Hmax [_ [Hmin Havg]]]]]].
  { intros ->. discriminate. }
  rewrite H in Hs. injection Hs as <-.
  assert (Hlen : 0 < len check).
  { destruct check; [discriminate | unfold len; simpl; lia]. }
  assert (Hb : Forall (fun x => fst (min_token_entry s) <= x
                                <= fst (max_token_entry s))
                 (map fst check)).
  { rewrite Forall_map. rewrite Forall_forall in *.
    intros x Hx. split; [now apply Hmin | now apply Hmax]. }
  apply sum_bounds in Hb. rewrite length_map_len in Hb.
  rewrite Havg. split.
  - apply Qle_shift_div_l.
    + replace 0%Q with (inject_Z 0) by reflexivity.
      rewrite <- Zlt_Qlt. exact Hlen.
    + rewrite <- inject_Z_mult, <- Zle_Qle. lia.
  - apply Qle_shift_div_r.
    + replace 0%Q with (inject_Z 0) by reflexivity.
      rewrite <- Zlt_Qlt. exact Hlen.
    + rewrite <- inject_Z_mult, <- Zle_Qle. lia.
Qed.

End Extremes.

Lemma statistics_report_first_extreme_witness :
  (exists pre post,
     Samples.tied_counts = (pre ++ (5, "b.c") :: post)%list
     /\ Forall (fun x : Z * string => fst x < 5) pre)
  /\ (exists pre post,
        Samples.tied_counts = (pre ++ (3, "a.c") :: post)%list
        /\ Forall (fun x : Z * string => 3 < fst x) pre).
Proof.
  exact (statistics_report_first_extreme Samples.tied_counts
           Samples.tied_stats eq_refl).
Defined.

Lemma statistics_average_between_witness :
  (inject_Z 3 <= 16 # 4)%Q /\ (16 # 4 <= inject_Z 5)%Q.
Proof.
  exact (statistics_average_between Samples.tied_counts Samples.tied_stats
           eq_refl).
Defined.

(** ** More on the generator *)

Section Pairs.

Import SFT.

Variable llm : nat -> list message -> result string.
Variable lower : string -> string.
Variable int_mul_0_7 : Z -> Z.
Variable max_code_length : Z.

Local Notation "'menu'" := (strategies llm lower int_mul_0_7).
Local Notation "'generate'" :=
  (generate_from llm lower int_mul_0_7 max_code_length).

(** What a strategy of the menu returns carries the identity of the
    record, the tag of the strategy, and leaves one chat call behind. *)
Lemma strategy_result (f : strategy_func) (e : code_entry) (st : state) :
  In f menu ->
  snd (call f e st) = called st
  /\ forall p, fst (call f e st) = Ok p ->
       meta_repo_id (meta p) = repo_id e
       /\ meta_file_path (meta p) = file_path e
       /\ In (strategy (meta p)) menu_tags.
Proof.
  intros Hin. simpl in Hin.
  destruct Hin as [<- | [<- | [<- | [<- | []]]]]; simpl;
    unfold _generate_code_documentation, _generate_code_completion,
      _generate_function_implementation, _generate_code_summary,
      bindM, invoke, ret;
    match goal with
    | |- context [llm ?k ?m] => destruct (llm k m)
    end; simpl; (split; [reflexivity |]); intros p Hp;
    try discriminate; injection Hp as <-; simpl; auto 10.
Qed.

Lemma apply_strategies_calls (sel : list strategy_func) (e : code_entry) :
  incl sel menu ->
  forall acc st,
    calls (snd (apply_strategies true sel e acc st))
    = (calls st + List.length sel)%nat.
Proof.
  induction sel as [| f rest IH]; intros Hincl acc st; simpl.
  - lia.
  - destruct (strategy_result f e st (Hincl f (or_introl eq_refl)))
      as [Hst _].
    destruct (call f e st) as [[p | err] st1]; simpl in Hst; subst st1.
    + rewrite IH by (intros x Hx; apply Hincl; now right). simpl. lia.
    + unfold bindM, print. simpl.
      rewrite IH by (intros x Hx; apply Hincl; now right). simpl. lia.
Qed.

Lemma generate_skip_total (entries : list code_entry) (n : Z) :
  forall acc st,
    exists pairs,
      fst (generate entries n true acc st) = Ok pairs.
Proof.
  induction entries as [| e rest IH]; intros acc st; simpl.
  - eauto.
  - destruct (max_code_length <? slen (content e)).
    + unfold bindM, print. simpl. apply IH.
    + unfold bindM.
      destruct (apply_strategies_skip (slice_to n menu) e acc st)
        as [added [st' [-> _]]].
      apply IH.
Qed.

Lemma bindM_total {A B} (c : M A) (k : A -> M B) :
  (forall st, exists a, fst (c st) = Ok a) ->
  (forall a st, exists b, fst (k a st) = Ok b) ->
  forall st, exists b, fst (bindM c k st) = Ok b.
Proof.
  intros Hc Hk st. unfold bindM.
  destruct (Hc st) as [a Ha].
  destruct (c st) as [[a' | e] st1]; simpl in Ha; [| discriminate].
  apply Hk.
Qed.

Lemma sample_total (v : option Z) (loaded : list code_entry) (st : state) :
  exists entries, fst (sample v loaded st) = Ok entries.
Proof.
  unfold sample. destruct v as [n |]; [| simpl; eauto].
  destruct (truthy (Some n)); simpl; eauto.
Qed.

(** With [skip_errors] set, the number of chat calls of a run is fixed by
    the input: every record that is not too long costs one call for each
    selected strategy, whether the calls succeed or not, and a record
    that is too long costs none. *)
Theorem generator_call_count (entries : list code_entry)
    (strategies_per_code : Z) (st : state) :
  0 <= strategies_per_code ->
  Z.of_nat
    (calls (snd (generate_sft_data llm lower int_mul_0_7 max_code_length
                   entries strategies_per_code true st)))
  = Z.of_nat (calls st)
    + len (filter (short_enough max_code_length) entries)
      * Z.min strategies_per_code 4.
Proof.
  intros Hn. unfold generate_sft_data.
  generalize (@nil sft_entry) as acc. revert st.
  induction entries as [| e rest IH]; intros st acc;
    cbn [generate_from filter].
  - unfold len. simpl. lia.
  - unfold short_enough at 1.
    destruct (max_code_length <? slen (content e)); cbn [negb].
    + unfold bindM, print. cbn [fst snd]. rewrite IH. reflexivity.
    + unfold bindM.
      pose proof (apply_strategies_calls
                    (slice_to strategies_per_code menu) e
                    (slice_to_incl _ _) acc st) as Hcalls.
      destruct (apply_strategies_skip (slice_to strategies_per_code menu)
                  e acc st) as [added [st' [Heq _]]].
      rewrite Heq in *. cbn [snd] in Hcalls. rewrite IH, Hcalls.
      pose proof (selected_length llm lower int_mul_0_7
                    strategies_per_code Hn) as Hsel.
      unfold len in *. cbn [List.length]. nia.
Qed.

Lemma apply_strategies_provenance (P : sft_entry -> Prop)
    (sel : list strategy_func) (e : code_entry) (skip_errors : bool) :
  incl sel menu ->
  (forall p,
     meta_repo_id (meta p) = repo_id e ->
     meta_file_path (meta p) = file_path e ->
     In (strategy (meta p)) menu_tags -> P p) ->
  forall acc st acc' st',
    apply_strategies skip_errors sel e acc st = (Ok acc', st') ->
    Forall P acc -> Forall P acc'.
Proof.
  intros Hincl HP. induction sel as [| f rest IH];
    intros acc st acc' st' H Hacc; simpl in H.
  - now injection H as <- _.
  - destruct (strategy_result f e st (Hincl f (or_introl eq_refl)))
      as [_ Hmeta].
    assert (Hrest : incl rest menu) by (intros x Hx; apply Hincl; now right).
    destruct (call f e st) as [[p | err] st1].
    + apply (IH Hrest) in H; [exact H |].
      apply Forall_app. split; [exact Hacc |].
      constructor; [| constructor].
      destruct (Hmeta p eq_refl) as [H1 [H2 H3]]. now apply HP.
    + destruct skip_errors; [| discriminate].
      unfold bindM, print in H. simpl in H.
      now apply (IH Hrest) in H.
Qed.

(** Every pair of a run names, in its metadata, a record of the input
    that was not too long, with that record's repository and path, and
    one of the four tags of the menu: nothing is produced for a skipped
    record. *)
Theorem generated_pairs_come_from_input (entries : list code_entry)
    (strategies_per_code : Z) (skip_errors : bool) (st st' : state)
    (pairs : list sft_entry) :
  generate_sft_data llm lower int_mul_0_7 max_code_length
    entries strategies_per_code skip_errors st = (Ok pairs, st') ->
  Forall (fun p =>
            exists e,
              In e entries
              /\ short_enough max_code_length e = true
              /\ meta_repo_id (meta p) = repo_id e
              /\ meta_file_path (meta p) = file_path e
              /\ In (strategy (meta p)) menu_tags)
    pairs.
Proof.
  unfold generate_sft_data.
  set (P := fun p =>
              exists e,
                In e entries
                /\ short_enough max_code_length e = true
                /\ meta_repo_id (meta p) = repo_id e
                /\ meta_file_path (meta p) = file_path e
                /\ In (strategy (meta p)) menu_tags).
  assert (H : forall todo acc st0,
             incl todo entries -> Forall P acc ->
             generate todo strategies_per_code skip_errors acc st0
             = (Ok pairs, st') ->
             Forall P pairs).
  { induction todo as [| e rest IH]; intros acc st0 Hincl Hacc Hrun;
      simpl in Hrun.
    - now injection Hrun as <- _.
    - assert (Hrest : incl rest entries)
        by (intros x Hx; apply Hincl; now right).
      destruct (max_code_length <? slen (content e)) eqn:Hlong.
      + unfold bindM, print in Hrun. simpl in Hrun.
        now apply (IH _ _ Hrest Hacc) in Hrun.
      + unfold bindM in Hrun.
        destruct (apply_strategies skip_errors _ e acc st0)
          as [[acc' | err] st1] eqn:Happ; [| discriminate].
        apply (IH _ _ Hrest) in Hrun; [exact Hrun |].
        apply (apply_strategies_provenance P _ e skip_errors
                 (slice_to_incl _ _)) in Happ; [exact Happ | | exact Hacc].
        intros p H1 H2 H3. exists e.
        split; [apply Hincl; now left |].
        unfold short_enough. rewrite Hlong. auto. }
  intros Hrun. apply (H entries [] st); [apply incl_refl | constructor | exact Hrun].
Qed.

End Pairs.

(** The command-line run cannot fail through the chat model: [main] calls
    the generator with [skip_errors] set, and whatever the chat calls do
    it ends normally with a list of pairs. *)
Theorem main_survives_chat_failures
    (llm : nat -> list SFT.message -> result string)
    (lower : string -> string) (int_mul_0_7 : Z -> Z)
    (a : SFT.args) (loaded : list SFT.code_entry) (st : SFT.state) :
  exists pairs, fst (SFT.main llm lower int_mul_0_7 a loaded st) = Ok pairs.
Proof.
  revert st. unfold SFT.main.
  apply bindM_total; [intros st; simpl; eauto | intros _].
  apply bindM_total; [intros st; simpl; eauto | intros _].
  apply bindM_total; [intros st; apply sample_total | intros entries].
  apply bindM_total; [intros st; simpl; eauto | intros _].
  apply bindM_total; [intros st; simpl; eauto | intros _].
  apply bindM_total; [| intros pairs st; simpl; eauto].
  intros st. unfold SFT.generate_sft_data. apply generate_skip_total.
Qed.

Lemma Forall2_firstn_both {A B} (R : A -> B -> Prop) (k : nat)
    (l : list A) (l' : list B) :
  Forall2 R l l' -> Forall2 R (firstn k l) (firstn k l').
Proof.
  intros H. revert k.
  induction H as [| a b l l' Hab _ IH]; intros [| k]; simpl;
    constructor; auto.
Qed.

Lemma Forall2_slice_to {A B} (R : A -> B -> Prop) (n : Z)
    (l : list A) (l' : list B) :
  Forall2 R l l' -> Forall2 R (slice_to n l) (slice_to n l').
Proof.
  intros H. unfold slice_to, len.
  rewrite (Forall2_length H).
  destruct (0 <=? n); now apply Forall2_firstn_both.
Qed.

Section MenuOrder.

Import SFT.

Variable llm : nat -> list message -> result string.
Variable lower : string -> string.
Variable int_mul_0_7 : Z -> Z.
Variable max_code_length : Z.

Local Notation "'menu'" := (strategies llm lower int_mul_0_7).

Local Notation "'tagged'" :=
  (fun (f : strategy_func) (tag : string) =>
     forall e st p st',
       call f e st = (Ok p, st') -> strategy (meta p) = tag).

Lemma menu_tags_aligned : Forall2 tagged menu menu_tags.
Proof.
  unfold strategies, menu_tags.
  repeat constructor; intros e st p st'; simpl;
    unfold _generate_code_documentation, _generate_code_completion,
      _generate_function_implementation, _generate_code_summary,
      bindM, invoke, ret;
    match goal with
    | |- context [llm ?k ?m] => destruct (llm k m)
    end; intros H; try discriminate; injection H as <- _; reflexivity.
Qed.

Lemma apply_strategies_tags (sel : list strategy_func) (tags : list string)
    (e : code_entry) (skip_errors : bool) :
  (forall k messages, exists reply, llm k messages = Ok reply) ->
  incl sel menu ->
  Forall2 tagged sel tags ->
  forall acc st,
    exists added st',
      apply_strategies skip_errors sel e acc st = (Ok (acc ++ added)%list, st')
      /\ map (fun p => strategy (meta p)) added = tags.
Proof.
  intros Hllm Hincl Htags. induction Htags as [| f tag rest tags Hf _ IH];
    intros acc st; simpl.
  - exists [], st. rewrite app_nil_r. split; reflexivity.
  - destruct (strategy_outcome llm lower int_mul_0_7 f e st
                (Hincl f (or_introl eq_refl))) as [messages Hout].
    destruct (Hllm (calls st) messages) as [reply Hreply].
    rewrite Hreply in Hout. destruct Hout as [entry Hcall]. rewrite Hcall.
    destruct (IH (fun x Hx => Hincl x (or_intror Hx))
                (acc ++ [entry])%list (called st))
      as [added [st' [Heq Hmap]]].
    exists (entry :: added), st'. rewrite Heq, <- app_assoc. simpl.
    split; [reflexivity |].
    now rewrite (Hf _ _ _ _ Hcall), Hmap.
Qed.

(** When no chat call fails, a record that is not too long yields the
    pairs of the first [strategies_per_code] strategies of the menu, in
    the order of the menu; the count is sliced as Python slices, so a
    negative count leaves that many strategies off the end of the menu. *)
Theorem generator_applies_menu_prefix (e : code_entry)
    (strategies_per_code : Z) (skip_errors : bool) (st : state) :
  (forall k messages, exists reply, llm k messages = Ok reply) ->
  slen (content e) <= max_code_length ->
  exists pairs st',
    generate_sft_data llm lower int_mul_0_7 max_code_length
      [e] strategies_per_code skip_errors st = (Ok pairs, st')
    /\ map (fun p => strategy (meta p)) pairs
       = slice_to strategies_per_code menu_tags.
Proof.
  intros Hllm Hshort.
  unfold generate_sft_data. simpl.
  apply Z.ltb_ge in Hshort. rewrite Hshort.
  destruct (apply_strategies_tags
              (slice_to strategies_per_code menu)
              (slice_to strategies_per_code menu_tags) e skip_errors Hllm
              (slice_to_incl _ _)
              (Forall2_slice_to _ _ _ _ menu_tags_aligned) [] st)
    as [added [st' [Heq Hmap]]].
  exists added, st'. unfold bindM. rewrite Heq. simpl.
  split; [reflexivity | exact Hmap].
Qed.

End MenuOrder.

Lemma generator_applies_menu_prefix_witness :
  exists pairs st',
    SFT.generate_sft_data Samples.llm_ok ascii_lower Samples.int_mul_0_7 2000
      [Samples.short_entry] (-1) false Samples.start = (Ok pairs, st')
    /\ map (fun p => SFT.strategy (SFT.meta p)) pairs
       = ["code_documentation"; "code_completion"; "function_implementation"].
Proof.
  apply (generator_applies_menu_prefix Samples.llm_ok ascii_lower
           Samples.int_mul_0_7 2000 Samples.short_entry (-1) false
           Samples.start).
  - intros k messages. exists "reply". reflexivity.
  - vm_compute. discriminate.
Defined.

Lemma pairs_per_record_without_failure_witness :
  exists pairs st',
    SFT.generate_sft_data Samples.llm_ok ascii_lower Samples.int_mul_0_7 2000
      [Samples.short_entry] 7 false Samples.start = (Ok pairs, st')
    /\ len pairs = 4.
Proof.
  apply (pairs_per_record_without_failure Samples.llm_ok ascii_lower
           Samples.int_mul_0_7 2000 Samples.short_entry 7 false
           Samples.start).
  - intros k messages. exists "reply". reflexivity.
  - vm_compute. discriminate.
  - lia.
Defined.

Lemma pairs_per_record_with_skips_witness :
  exists pairs st',
    SFT.generate_sft_data Samples.llm_fails_second ascii_lower
      Samples.int_mul_0_7 2000
      [Samples.short_entry] 2 true Samples.start = (Ok pairs, st')
    /\ len pairs <= 2.
Proof.
  apply (pairs_per_record_with_skips Samples.llm_fails_second ascii_lower
           Samples.int_mul_0_7 2000 Samples.short_entry 2 Samples.start).
  - vm_compute. discriminate.
  - lia.
Defined.

Lemma generator_call_count_witness :
  Z.of_nat
    (SFT.calls
       (snd (SFT.generate_sft_data Samples.llm_fails_second ascii_lower
               Samples.int_mul_0_7 8
               [Samples.short_entry; Samples.other_entry;
                SFT.mk_code_entry "octo/demo" "c.py" "print(12345)" 12]
               3 true Samples.start)))
  = 0 + 2 * 3.
Proof.
  apply (generator_call_count Samples.llm_fails_second ascii_lower
           Samples.int_mul_0_7 8
           [Samples.short_entry; Samples.other_entry;
            SFT.mk_code_entry "octo/demo" "c.py" "print(12345)" 12]
           3 Samples.start).
  lia.
Defined.

Lemma generated_pairs_come_from_input_witness :
  Forall (fun p =>
            exists e,
              In e [Samples.short_entry]
              /\ SFT.short_enough 2000 e = true
              /\ SFT.meta_repo_id (SFT.meta p) = SFT.repo_id e
              /\ SFT.meta_file_path (SFT.meta p) = SFT.file_path e
              /\ In (SFT.strategy (SFT.meta p)) SFT.menu_tags)
    (match fst (SFT.generate_sft_data Samples.llm_ok ascii_lower
                  Samples.int_mul_0_7 2000 [Samples.short_entry] 2 false
                  Samples.start)
     with Ok pairs => pairs | Raise _ => [] end).
Proof.
  apply (generated_pairs_come_from_input Samples.llm_ok ascii_lower
           Samples.int_mul_0_7 2000 [Samples.short_entry] 2 false
           Samples.start
           (snd (SFT.generate_sft_data Samples.llm_ok ascii_lower
                   Samples.int_mul_0_7 2000 [Samples.short_entry] 2 false
                   Samples.start))).
  vm_compute. reflexivity.
Defined.

(** ** More on the training driver *)

Section Sources.

Import Train.

Variable load_dataset : load_call -> result DatasetDict.

Local Notation "'train_split_of'" :=
  (fun (source : string) (train : Dataset) =>
     exists dd,
       load_dataset (load_call_of source) = Ok dd
       /\ getitem dd "train" = Ok train).

Lemma load_sources_in_order_from (data_sources : list string) :
  forall acc current datasets dataset,
    load_sources load_dataset data_sources acc current
    = Ok (datasets, dataset) ->
    exists added,
      datasets = (acc ++ added)%list
      /\ Forall2 train_split_of data_sources added.
Proof.
  induction data_sources as [| source rest IH];
    intros acc current datasets dataset H; simpl in H.
  - injection H as <- _. exists []. rewrite app_nil_r.
    split; [reflexivity | constructor].
  - destruct (load_dataset (load_call_of source)) as [dd | e] eqn:Hdd;
      simpl in H; [| discriminate].
    destruct (getitem dd "train") as [train | e] eqn:Htrain; simpl in H;
      [| discriminate].
    apply IH in H. destruct H as [added [-> Hall]].
    exists (train :: added). rewrite <- app_assoc. split; [reflexivity |].
    constructor; [eauto | exact Hall].
Qed.

(** When the loading loop goes through, the list to combine holds one
    dataset per source, in the order of the sources: the train split of
    what was loaded for it, from a JSON file for a name ending in .json
    and from the hub otherwise. *)
Theorem sources_load_in_order (data_sources : list string)
    (datasets : list Dataset) (dataset : option DatasetDict) :
  load_sources load_dataset data_sources [] None = Ok (datasets, dataset) ->
  Forall2 train_split_of data_sources datasets.
Proof.
  intros H. apply load_sources_in_order_from in H.
  destruct H as [added [-> Hall]]. exact Hall.
Qed.

End Sources.

(** Whenever the formatting function returns, the text column it returns
    is empty: it returns only on a batch without records. *)
Theorem formatting_returns_only_empty (EOS_TOKEN text_column : string)
    (examples : Train.Dataset) (out : string * list string) :
  Train.formatting_prompts_func EOS_TOKEN text_column examples = Ok out ->
  out = (text_column, []).
Proof.
  unfold Train.formatting_prompts_func. intros H.
  destruct (Train.column examples "file_path") as [file_paths | e];
    simpl in H; [| discriminate].
  destruct (Train.column examples "content") as [contents | e];
    simpl in H; [| discriminate].
  destruct (combine file_paths contents) as [| row rest] eqn:Hrows.
  - simpl in H. now injection H as <-.
  - rewrite format_rows_raises in H by discriminate. discriminate.
Qed.

Lemma formatting_returns_only_empty_witness :
  ("text", @nil string) = ("text", []).
Proof.
  apply (formatting_returns_only_empty "<eos>" "text"
           [("file_path", []); ("content", [])] ("text", [])).
  reflexivity.
Defined.

Lemma sources_load_in_order_witness :
  Forall2
    (fun (source : string) (train : Train.Dataset) =>
       exists dd,
         Samples.load_dataset (Train.load_call_of source) = Ok dd
         /\ Train.getitem dd "train" = Ok train)
    Samples.two_sources [Samples.dataset_a; Samples.dataset_b].
Proof.
  apply (sources_load_in_order Samples.load_dataset Samples.two_sources
           [Samples.dataset_a; Samples.dataset_b]
           (Some [("train", Samples.dataset_b)])).
  reflexivity.
Defined.

Lemma main_with_passes_last_loaded_witness :
  exists dd,
    Train.ADatasetDict [("train", Samples.dataset_b)] = Train.ADatasetDict dd
    /\ Samples.load_dataset (Train.load_call_of "b.json") = Ok dd.
Proof.
  apply (main_with_passes_last_loaded "text" Samples.load_dataset
           (Train.formatting_prompts_func_kw "<eos>" "text")
           Samples.two_sources
           (Train.mk_trainer_call
              (Train.ADatasetDict [("train", Samples.dataset_b)]) "text")).
  vm_compute. reflexivity.
Defined.

Lemma main_constructs_no_trainer_witness :
  is_raise (Train.main "<eos>" Samples.load_same ["a.json"; "org/corpus"]
              "text") = true.
Proof.
  apply (main_constructs_no_trainer "<eos>" "text" Samples.load_same
           ["a.json"; "org/corpus"]).
  intros c dd train Hdd Htrain.
  unfold Samples.load_same in Hdd. injection Hdd as <-.
  simpl in Htrain. injection Htrain as <-.
  repeat constructor.
Defined.

(** ** Splitting and joining strings *)

Lemma substring_whole (s : string) : substring 0 (String.length s) s = s.
Proof. induction s as [| c s IH]; simpl; [reflexivity | now rewrite IH]. Qed.

Lemma take_drop (k : nat) (s : string) : (take k s ++ drop k s)%string = s.
Proof.
  unfold take, drop. revert k.
  induction s as [| c s IH]; intros [| k]; simpl; try reflexivity.
  - now rewrite substring_whole.
  - now rewrite IH.
Qed.

Lemma string_app_nil_r (s : string) : (s ++ "")%string = s.
Proof. induction s as [| c s IH]; simpl; [reflexivity | now rewrite IH]. Qed.

Lemma splitext_scan_joins (p : string) (n : nat) :
  forall filenameIndex dotIndex,
    (fst (splitext_scan p filenameIndex n dotIndex)
     ++ snd (splitext_scan p filenameIndex n dotIndex))%string = p.
Proof.
  induction n as [| n IH]; intros filenameIndex dotIndex; simpl.
  - apply string_app_nil_r.
  - destruct (String.get filenameIndex p) as [c |]; simpl;
      [| apply take_drop].
    destruct (Ascii.eqb c "."%char) eqn:Hc.
    + apply Ascii.eqb_eq in Hc. subst c. apply IH.
    + assert (Hne : c <> "."%char)
        by (intros ->; now rewrite Ascii.eqb_refl in Hc).
      destruct c as [[] [] [] [] [] [] [] []]; simpl;
        try apply take_drop; now contradiction Hne.
Qed.

(** The extension the classifier looks up is an end of the lowercased
    path: the path is what stands before it followed by it. *)
Theorem extension_is_suffix (lower : string -> string) (file_path : string) :
  exists root,
    lower file_path = (root ++ Filtering.extension lower file_path)%string.
Proof.
  unfold Filtering.extension.
  exists (fst (splitext (lower file_path))). symmetry.
  unfold splitext.
  destruct (rfind "/"%char (lower file_path) <? rfind "."%char (lower file_path)).
  - apply splitext_scan_joins.
  - simpl. apply string_app_nil_r.
Qed.

Lemma string_length_app (a b : string) :
  String.length (a ++ b) = (String.length a + String.length b)%nat.
Proof. induction a as [| c a IH]; simpl; [reflexivity | now rewrite IH]. Qed.

Lemma substring_after_prefix (a b : string) :
  substring (String.length a) (String.length b) (a ++ b) = b.
Proof.
  induction a as [| c a IH]; simpl; [apply substring_whole | exact IH].
Qed.

(** A source is read as a local JSON file exactly when its name ends in
    ".json", in lower case; every other name is handed to the hub. *)
Theorem json_source_iff_suffix (source : string) :
  (Train.load_call_of source = Train.LoadJson source
   <-> exists stem, source = (stem ++ ".json")%string)
  /\ (Train.load_call_of source = Train.LoadJson source
      \/ Train.load_call_of source = Train.LoadHub source).
Proof.
  unfold Train.load_call_of.
  assert (Hiff : Train.endswith source ".json" = true
                 <-> exists stem, source = (stem ++ ".json")%string).
  { unfold Train.endswith. rewrite andb_true_iff, Nat.leb_le, String.eqb_eq.
    split.
    - intros [Hle Hsub].
      exists (take (String.length source - String.length ".json") source).
      rewrite <- Hsub at 2.
      pose proof (take_drop (String.length source - String.length ".json")
                    source) as Hsplit.
      unfold drop in Hsplit.
      replace (String.length source
               - (String.length source - String.length ".json"))%nat
        with (String.length ".json") in Hsplit by lia.
      now symmetry.
    - intros [stem ->]. rewrite string_length_app. split; [lia |].
      replace (String.length stem + String.length ".json"
               - String.length ".json")%nat
        with (String.length stem) by lia.
      apply substring_after_prefix. }
  destruct (Train.endswith source ".json"); split; auto.
  - split; [intros _; now apply Hiff | reflexivity].
  - split; [discriminate |].
    intros H. apply Hiff in H. discriminate.
Qed.

Lemma split_from_without_sep (sep : ascii) (s : string) :
  ~ In sep (list_ascii_of_string s) ->
  forall cur, SFT.split_from sep s cur = [(cur ++ s)%string].
Proof.
  induction s as [| c s IH]; simpl; intros Hno cur.
  - now rewrite string_app_nil_r.
  - destruct (Ascii.eqb c sep) eqn:Hc.
    + apply Ascii.eqb_eq in Hc. exfalso. apply Hno. now left.
    + rewrite IH by (intros H; apply Hno; now right).
      now rewrite string_app_assoc.
Qed.

(** For a code of a single line the completion strategy cuts everything:
    with int(1 * 0.7) = 0 no line is kept, and the pair asks to complete
    an empty code block. *)
Theorem completion_of_one_line_is_empty
    (llm : nat -> list SFT.message -> result string)
    (int_mul_0_7 : Z -> Z) (e : SFT.code_entry) (st st' : SFT.state)
    (p : SFT.sft_entry) :
  int_mul_0_7 1 = 0 ->
  ~ In SFT.newline (list_ascii_of_string (SFT.content e)) ->
  SFT._generate_code_completion llm int_mul_0_7 e st = (Ok p, st') ->
  SFT.instruction p
  = ("다음 미완성 코드를 완성해주세요:" ++ nl ++ nl
     ++ SFT.fence ++ nl ++ nl ++ SFT.fence)%string.
Proof.
  intros Hcut Hline H.
  unfold SFT._generate_code_completion, SFT.bindM, SFT.invoke, SFT.ret in H.
  unfold SFT.split in H.
  rewrite (split_from_without_sep _ _ Hline) in H.
  change (len [("" ++ SFT.content e)%string]) with 1 in H.
  rewrite Hcut in H.
  match type of H with
  | context [llm ?k ?m] => destruct (llm k m); [| discriminate]
  end.
  injection H as <- _. reflexivity.
Qed.

Lemma completion_of_one_line_is_empty_witness :
  exists p st,
    SFT._generate_code_completion Samples.llm_ok Samples.int_mul_0_7
      Samples.short_entry Samples.start = (Ok p, st)
    /\ SFT.instruction p
       = ("다음 미완성 코드를 완성해주세요:" ++ nl ++ nl
          ++ SFT.fence ++ nl ++ nl ++ SFT.fence)%string.
Proof.
  do 2 eexists. split; [reflexivity |].
  eapply (completion_of_one_line_is_empty Samples.llm_ok Samples.int_mul_0_7
            Samples.short_entry Samples.start).
  - reflexivity.
  - simpl. intuition discriminate.
  - reflexivity.
Defined.
